(** * galah, package [llm]: a shallow embedding of [pkg/llm/llm.go]

    The package picks an LLM backend, turns a captured HTTP request into a
    prompt, calls the model and post-processes the answer (strip markdown
    fences, check that the text is the expected JSON object).

    Go strings are byte strings.  At the level of the package they are
    values of type [string]; the library routines that look at individual
    bytes (UTF-8 decoding, the regular-expression matcher, the JSON
    scanner) work on [list ascii], one [ascii] per byte, and the package
    level functions convert at the boundary, as [[]byte(jsonStr)] does in
    the source.  A Go [error] is modelled by the text of its [Error()]
    method; the nil error is [None]. *)

From Stdlib Require Import NArith Ascii String List Bool Lia.
From stdpp Require Import base option list gmap strings.

Local Open Scope string_scope.
Local Open Scope list_scope.
Local Open Scope N_scope.

Abbreviation bytes := (list ascii).
Abbreviation error := string (only parsing).

Definition b2n (c : ascii) : N := N_of_ascii c.
Definition bytesOf (s : string) : bytes := list_ascii_of_string s.
Definition stringOf (b : bytes) : string := string_of_list_ascii b.

(** [stripPrefix p s]: the rest of [s] after the literal [p], if [s]
    starts with [p]. *)
Fixpoint stripPrefix (p : bytes) (s : bytes) : option bytes :=
  match p with
  | [] => Some s
  | a :: p' =>
      match s with
      | [] => None
      | b :: s' => if Ascii.eqb a b then stripPrefix p' s' else None
      end
  end.

Definition HasPrefix (s p : bytes) : bool :=
  match stripPrefix p s with
  | Some _ => true
  | None => false
  end.

(** ** unicode/utf8 *)
Module utf8.

Definition RuneError : N := 0xFFFD.
Definition RuneSelf : N := 0x80.
Definition MaxRune : N := 0x10FFFF.
Definition UTFMax : nat := 4.

Definition surrogateMin : N := 0xD800.
Definition surrogateMax : N := 0xDFFF.

Definition locb : N := 0x80.
Definition hicb : N := 0xBF.

(** Entries of the [first] table: the low three bits give the length of
    the encoding, the high four bits index [acceptRanges]. *)
Definition xx : N := 0xF1.
Definition as_ : N := 0xF0.
Definition s1 : N := 0x02.
Definition s2 : N := 0x13.
Definition s3 : N := 0x03.
Definition s4 : N := 0x23.
Definition s5 : N := 0x34.
Definition s6 : N := 0x04.
Definition s7 : N := 0x44.

Definition first (b : N) : N :=
  if b <? 0x80 then as_
  else if b <? 0xC2 then xx
  else if b <? 0xE0 then s1
  else if b =? 0xE0 then s2
  else if b <? 0xED then s3
  else if b =? 0xED then s4
  else if b <? 0xF0 then s3
  else if b =? 0xF0 then s5
  else if b <? 0xF4 then s6
  else if b =? 0xF4 then s7
  else xx.

(** [acceptRanges i] is the pair (lo, hi) allowed for the second byte. *)
Definition acceptRanges (i : N) : N * N :=
  match i with
  | 0 => (locb, hicb)
  | 1 => (0xA0, hicb)
  | 2 => (locb, 0x9F)
  | 3 => (0x90, hicb)
  | 4 => (locb, 0x8F)
  | _ => (0, 0)
  end.

(** [s[i]] for an index the caller has checked to be in range. *)
Definition at_ (s : bytes) (i : nat) : N := b2n (nth i s zero).

Definition maskx : N := 0x3F.
Definition mask2 : N := 0x1F.
Definition mask3 : N := 0x0F.
Definition mask4 : N := 0x07.

(** The rune assembled from the payload bits of two, three and four
    bytes. *)
Definition rune2 (b0 b1 : N) : N :=
  N.lor (N.shiftl (N.land b0 mask2) 6) (N.land b1 maskx).

Definition rune3 (b0 b1 b2 : N) : N :=
  N.lor (N.lor (N.shiftl (N.land b0 mask3) 12) (N.shiftl (N.land b1 maskx) 6))
        (N.land b2 maskx).

Definition rune4 (b0 b1 b2 b3 : N) : N :=
  N.lor (N.lor (N.lor (N.shiftl (N.land b0 mask4) 18)
                      (N.shiftl (N.land b1 maskx) 12))
               (N.shiftl (N.land b2 maskx) 6))
        (N.land b3 maskx).

Definition DecodeRuneInString (s : bytes) : N * nat :=
  let n := length s in
  if (n <? 1)%nat then (RuneError, 0%nat)
  else
    let s0 := at_ s 0 in
    let x := first s0 in
    if as_ <=? x then ((if N.odd x then RuneError else s0), 1%nat)
    else
      let sz := N.to_nat (N.land x 7) in
      let accept := acceptRanges (N.shiftr x 4) in
      if (n <? sz)%nat then (RuneError, 1%nat)
      else
        let c1 := at_ s 1 in
        if (c1 <? fst accept) || (snd accept <? c1) then (RuneError, 1%nat)
        else if (sz <=? 2)%nat then (rune2 s0 c1, 2%nat)
        else
          let c2 := at_ s 2 in
          if (c2 <? locb) || (hicb <? c2) then (RuneError, 1%nat)
          else if (sz <=? 3)%nat then (rune3 s0 c1 c2, 3%nat)
          else
            let c3 := at_ s 3 in
            if (c3 <? locb) || (hicb <? c3) then (RuneError, 1%nat)
            else (rune4 s0 c1 c2 c3, 4%nat).

(** [RuneStart b]: [b] is not a continuation byte. *)
Definition RuneStart (b : N) : bool := negb (N.land b 0xC0 =? 0x80).

(** The backwards scan of [DecodeLastRuneInString]: starting at index
    [start], step down while [start >= lim] until a rune start is found.
    [None] stands for an index that went below zero. *)
Fixpoint scanBack (s : bytes) (lim : nat) (steps : nat) (start : nat) : option nat :=
  match steps with
  | O => Some start
  | S steps' =>
      if (start <? lim)%nat then Some start
      else if RuneStart (at_ s start) then Some start
      else match start with
           | O => None
           | S start' => scanBack s lim steps' start'
           end
  end.

Definition DecodeLastRuneInString (s : bytes) : N * nat :=
  let end_ := length s in
  if (end_ =? 0)%nat then (RuneError, 0%nat)
  else
    let start := (end_ - 1)%nat in
    let r := at_ s start in
    if r <? RuneSelf then (r, 1%nat)
    else
      let lim := (end_ - UTFMax)%nat in
      let start :=
        match start with
        | O => 0%nat
        | S start' => default 0%nat (scanBack s lim UTFMax start')
        end in
      let '(r, size) := DecodeRuneInString (drop start s) in
      if negb (start + size =? end_)%nat then (RuneError, 1%nat)
      else (r, size).

Definition byte_ (n : N) : ascii := ascii_of_N (N.land n 0xFF).

Definition EncodeRune (r : N) : bytes :=
  if r <=? 0x7F then [byte_ r]
  else if r <=? 0x7FF then
    [byte_ (N.lor 0xC0 (N.shiftr r 6)); byte_ (N.lor 0x80 (N.land r 0x3F))]
  else
    let r := if (MaxRune <? r) || ((surrogateMin <=? r) && (r <=? surrogateMax))
             then RuneError else r in
    if r <=? 0xFFFF then
      [byte_ (N.lor 0xE0 (N.shiftr r 12));
       byte_ (N.lor 0x80 (N.land (N.shiftr r 6) 0x3F));
       byte_ (N.lor 0x80 (N.land r 0x3F))]
    else
      [byte_ (N.lor 0xF0 (N.shiftr r 18));
       byte_ (N.lor 0x80 (N.land (N.shiftr r 12) 0x3F));
       byte_ (N.lor 0x80 (N.land (N.shiftr r 6) 0x3F));
       byte_ (N.lor 0x80 (N.land r 0x3F))].

End utf8.

(** ** unicode *)
Module unicode.

Definition MaxLatin1 : N := 0xFF.
Definition ReplacementChar : N := 0xFFFD.

(** The [White_Space] range table, Latin-1 part excluded. *)
Definition White_Space_excludingLatin (r : N) : bool :=
  (r =? 0x1680) || ((0x2000 <=? r) && (r <=? 0x200A))
  || ((0x2028 <=? r) && (r <=? 0x2029)) || (r =? 0x202F)
  || (r =? 0x205F) || (r =? 0x3000).

Definition IsSpace (r : N) : bool :=
  if r <=? MaxLatin1 then
    ((0x09 <=? r) && (r <=? 0x0D)) || (r =? 0x20) || (r =? 0x85) || (r =? 0xA0)
  else White_Space_excludingLatin r.

End unicode.

(** ** strings *)
Module gostrings.

(** [TrimLeftFunc s f]: [s] without its leading runes that satisfy [f].
    The loop decodes one rune per iteration, so [length s] iterations
    are enough. *)
Fixpoint trimLeft (fuel : nat) (f : N -> bool) (s : bytes) : bytes :=
  match fuel with
  | O => s
  | S fuel' =>
      match s with
      | [] => []
      | _ :: _ =>
          let '(r, size) := utf8.DecodeRuneInString s in
          if f r then trimLeft fuel' f (drop size s) else s
      end
  end.

Definition TrimLeftFunc (s : bytes) (f : N -> bool) : bytes :=
  trimLeft (length s) f s.

(** [TrimRightFunc s f]: [s] without its trailing runes that satisfy
    [f], found with [DecodeLastRuneInString]. *)
Fixpoint trimRight (fuel : nat) (f : N -> bool) (s : bytes) : bytes :=
  match fuel with
  | O => s
  | S fuel' =>
      match s with
      | [] => []
      | _ :: _ =>
          let '(r, size) := utf8.DecodeLastRuneInString s in
          if f r then trimRight fuel' f (take (length s - size) s) else s
      end
  end.

Definition TrimRightFunc (s : bytes) (f : N -> bool) : bytes :=
  trimRight (length s) f s.

Definition TrimFunc (s : bytes) (f : N -> bool) : bytes :=
  TrimRightFunc (TrimLeftFunc s f) f.

(** [TrimSpace]: all leading and trailing white space removed, as
    defined by Unicode.  Go first runs a loop over ASCII bytes and
    falls back to [TrimFunc] at the first byte >= [RuneSelf]; on ASCII
    bytes both agree, so the model is [TrimFunc] from the start. *)
Definition TrimSpace (s : bytes) : bytes := TrimFunc s unicode.IsSpace.

End gostrings.

(** ** regexp

    The part of the regular-expression language the package uses, with
    the leftmost-first (backtracking preference) semantics of Go's
    matcher: of all matches starting at the leftmost possible offset the
    one a backtracking search would find first is chosen; an alternation
    prefers its left branch and [?] prefers to match.

    The matcher below steps byte by byte.  Go steps rune by rune; for a
    pattern made of ASCII literals, as here, this is the same, because
    an ASCII byte never occurs inside the encoding of another rune. *)
Module regexp.

Inductive Regexp : Type :=
| OpBeginText                        (* ^ without the m flag *)
| OpLiteral (lit : string)
| OpConcat (r1 r2 : Regexp)
| OpAlternate (r1 r2 : Regexp)
| OpQuest (r : Regexp).              (* greedy r? *)

(** [backtrack re pos s k]: match [re] against [s], the input from
    offset [pos] on, and hand the offset and input after the match to
    [k]; the first alternative for which [k] succeeds wins. *)
Fixpoint backtrack {A} (re : Regexp) (pos : nat) (s : bytes)
    (k : nat -> bytes -> option A) : option A :=
  match re with
  | OpBeginText => if (pos =? 0)%nat then k pos s else None
  | OpLiteral lit =>
      match stripPrefix (bytesOf lit) s with
      | Some s' => k (pos + String.length lit)%nat s'
      | None => None
      end
  | OpConcat r1 r2 => backtrack r1 pos s (fun p s' => backtrack r2 p s' k)
  | OpAlternate r1 r2 =>
      match backtrack r1 pos s k with
      | Some m => Some m
      | None => backtrack r2 pos s k
      end
  | OpQuest r =>
      match backtrack r pos s k with
      | Some m => Some m
      | None => k pos s
      end
  end.

(** The end offset of the preferred match that starts exactly at
    [pos]. *)
Definition matchAt (re : Regexp) (pos : nat) (s : bytes) : option nat :=
  backtrack re pos s (fun p _ => Some p).

(** The loop of [ReplaceAllString].  [pos] is the search offset, [s]
    the input from [pos] on, [lastMatchEnd] the end of the previous
    match.  A match is replaced by [repl], except an empty match right
    after another match; bytes not covered by a match are copied. *)
Fixpoint replaceAll (fuel : nat) (re : Regexp) (repl : bytes)
    (pos lastMatchEnd : nat) (s : bytes) : bytes :=
  match fuel with
  | O => s
  | S fuel' =>
      match matchAt re pos s with
      | Some e =>
          let out := if (lastMatchEnd <? e)%nat || (pos =? 0)%nat
                     then repl else [] in
          if (pos <? e)%nat
          then out ++ replaceAll fuel' re repl e e (drop (e - pos) s)
          else match s with
               | [] => out
               | c :: s' => out ++ c :: replaceAll fuel' re repl (S pos) e s'
               end
      | None =>
          match s with
          | [] => []
          | c :: s' => c :: replaceAll fuel' re repl (S pos) lastMatchEnd s'
          end
      end
  end.

(** [re.ReplaceAllString(src, repl)] for a replacement text without
    [$] expansions.  The offset grows in every iteration and the loop
    stops after offset [len(src)], so [S (length src)] iterations
    suffice. *)
Definition ReplaceAllString (re : Regexp) (src repl : string) : string :=
  stringOf (replaceAll (S (String.length src)) re (bytesOf repl) 0 0 (bytesOf src)).

End regexp.


(** ** unicode/utf16 *)
Module utf16.

Definition surr1 : N := 0xD800.
Definition surr2 : N := 0xDC00.
Definition surr3 : N := 0xE000.
Definition surrSelf : N := 0x10000.

Definition IsSurrogate (r : N) : bool := (surr1 <=? r) && (r <? surr3).

(** [DecodeRune r1 r2]; [r2 = None] stands for a negative rune, which is
    never a low surrogate. *)
Definition DecodeRune (r1 : N) (r2 : option N) : N :=
  match r2 with
  | Some r2 =>
      if (surr1 <=? r1) && (r1 <? surr2) && (surr2 <=? r2) && (r2 <? surr3)
      then N.lor (N.shiftl (r1 - surr1) 10) (r2 - surr2) + surrSelf
      else unicode.ReplacementChar
  | None => unicode.ReplacementChar
  end.

End utf16.

(** ** package llm: the expected answer *)

(** [JSONResponse] defines the expected JSON response from the LLM.  A Go
    map is nil or a map; [Headers = None] is the nil map. *)
Record JSONResponse : Type := {
  Headers : option (gmap string string);   (* `json:"headers" validate:"required"` *)
  Body : string                            (* `json:"body" validate:"required"` *)
}.

(** The zero value of the struct. *)
Definition zeroResponse : JSONResponse := {| Headers := None; Body := "" |}.

(** ** encoding/json

    [Valid] is the byte-by-byte scanner of [scanner.go].  [Unmarshal] runs
    the scanner first and then decodes; the decoder is modelled in two
    steps, reading the text into a [Value] tree and storing the tree into
    the Go value. *)
Module json.

Local Open Scope char_scope.

(** *** The scanner *)

Inductive opcode : Type :=
| scanContinue | scanBeginLiteral | scanBeginObject | scanObjectKey
| scanObjectValue | scanEndObject | scanBeginArray | scanArrayValue
| scanEndArray | scanSkipSpace | scanEnd | scanError.

Inductive pstate : Type := parseObjectKey | parseObjectValue | parseArrayValue.

Definition maxNestingDepth : N := 10000.

(** The step functions, as values of the [step] field. *)
Inductive stepFn : Type :=
| stateBeginValueOrEmpty | stateBeginValue | stateBeginStringOrEmpty
| stateBeginString | stateEndValue | stateEndTop
| stateInString | stateInStringEsc | stateInStringEscU | stateInStringEscU1
| stateInStringEscU12 | stateInStringEscU123
| stateNeg | state1 | state0 | stateDot | stateDot0 | stateE | stateESign
| stateE0 | stateT | stateTr | stateTru | stateF | stateFa | stateFal
| stateFals | stateN | stateNu | stateNul | stateError.

(** [parseState] is a stack; its top is the head of the list. *)
Record scanner : Type := {
  step : stepFn;
  endTop : bool;
  parseState : list pstate;
  err : bool
}.

Definition reset : scanner :=
  {| step := stateBeginValue; endTop := false; parseState := []; err := false |}.

Definition setStep (s : scanner) (f : stepFn) : scanner :=
  {| step := f; endTop := endTop s; parseState := parseState s; err := err s |}.

Definition setTop (s : scanner) (p : pstate) : scanner :=
  {| step := step s; endTop := endTop s;
     parseState := p :: tail (parseState s); err := err s |}.

Definition error_ (s : scanner) : scanner * opcode :=
  ({| step := stateError; endTop := endTop s; parseState := parseState s;
      err := true |}, scanError).

Definition pushParseState (s : scanner) (newParseState : pstate)
    (successState : opcode) : scanner * opcode :=
  let s := {| step := step s; endTop := endTop s;
              parseState := newParseState :: parseState s; err := err s |} in
  if (N.of_nat (length (parseState s)) <=? maxNestingDepth)%N
  then (s, successState)
  else error_ s.

Definition popParseState (s : scanner) : scanner :=
  let st := tail (parseState s) in
  match st with
  | [] => {| step := stateEndTop; endTop := true; parseState := st; err := err s |}
  | _ :: _ => {| step := stateEndValue; endTop := endTop s; parseState := st;
                 err := err s |}
  end.

Definition dquote : ascii := "034".
Definition backspace : ascii := "008".
Definition formfeed : ascii := "012".
Definition newline : ascii := "010".
Definition creturn : ascii := "013".
Definition htab : ascii := "009".

Definition isSpace (c : ascii) : bool :=
  (c <=? " ") && ((c =? " ") || (c =? htab) || (c =? creturn) || (c =? newline)).

Definition isDigit (c : ascii) : bool := ("0" <=? c) && (c <=? "9").

Definition isHex (c : ascii) : bool :=
  isDigit c || (("a" <=? c) && (c <=? "f")) || (("A" <=? c) && (c <=? "F")).

Definition stateEndTop_ (s : scanner) (c : ascii) : scanner * opcode :=
  if negb (isSpace c)
  then (fst (error_ s), scanEnd)   (* complain on the next call *)
  else (s, scanEnd).

Definition stateEndValue_ (s : scanner) (c : ascii) : scanner * opcode :=
  match parseState s with
  | [] =>
      (* completed top-level before the current byte *)
      stateEndTop_ {| step := stateEndTop; endTop := true;
                      parseState := parseState s; err := err s |} c
  | ps :: _ =>
      if isSpace c then (setStep s stateEndValue, scanSkipSpace)
      else
        match ps with
        | parseObjectKey =>
            if c =? ":"
            then (setStep (setTop s parseObjectValue) stateBeginValue, scanObjectKey)
            else error_ s
        | parseObjectValue =>
            if c =? ","
            then (setStep (setTop s parseObjectKey) stateBeginString, scanObjectValue)
            else if c =? "}" then (popParseState s, scanEndObject)
            else error_ s
        | parseArrayValue =>
            if c =? "," then (setStep s stateBeginValue, scanArrayValue)
            else if c =? "]" then (popParseState s, scanEndArray)
            else error_ s
        end
  end.

Definition stateBeginValue_ (s : scanner) (c : ascii) : scanner * opcode :=
  if isSpace c then (s, scanSkipSpace)
  else if c =? "{" then
    pushParseState (setStep s stateBeginStringOrEmpty) parseObjectKey scanBeginObject
  else if c =? "[" then
    pushParseState (setStep s stateBeginValueOrEmpty) parseArrayValue scanBeginArray
  else if c =? dquote then (setStep s stateInString, scanBeginLiteral)
  else if c =? "-" then (setStep s stateNeg, scanBeginLiteral)
  else if c =? "0" then (setStep s state0, scanBeginLiteral)
  else if c =? "t" then (setStep s stateT, scanBeginLiteral)
  else if c =? "f" then (setStep s stateF, scanBeginLiteral)
  else if c =? "n" then (setStep s stateN, scanBeginLiteral)
  else if ("1" <=? c) && (c <=? "9") then (setStep s state1, scanBeginLiteral)
  else error_ s.

Definition stateBeginValueOrEmpty_ (s : scanner) (c : ascii) : scanner * opcode :=
  if isSpace c then (s, scanSkipSpace)
  else if c =? "]" then stateEndValue_ s c
  else stateBeginValue_ s c.

Definition stateBeginString_ (s : scanner) (c : ascii) : scanner * opcode :=
  if isSpace c then (s, scanSkipSpace)
  else if c =? dquote then (setStep s stateInString, scanBeginLiteral)
  else error_ s.

Definition stateBeginStringOrEmpty_ (s : scanner) (c : ascii) : scanner * opcode :=
  if isSpace c then (s, scanSkipSpace)
  else if c =? "}" then stateEndValue_ (setTop s parseObjectValue) c
  else stateBeginString_ s c.

Definition stateInString_ (s : scanner) (c : ascii) : scanner * opcode :=
  if c =? dquote then (setStep s stateEndValue, scanContinue)
  else if c =? "\" then (setStep s stateInStringEsc, scanContinue)
  else if c <? " " then error_ s
  else (s, scanContinue).

Definition stateInStringEsc_ (s : scanner) (c : ascii) : scanner * opcode :=
  if (c =? "b") || (c =? "f") || (c =? "n") || (c =? "r") || (c =? "t")
     || (c =? "\") || (c =? "/") || (c =? dquote)
  then (setStep s stateInString, scanContinue)
  else if c =? "u" then (setStep s stateInStringEscU, scanContinue)
  else error_ s.

(** The four states reading the hexadecimal digits of [\u]. *)
Definition stateHex_ (next : stepFn) (s : scanner) (c : ascii) : scanner * opcode :=
  if isHex c then (setStep s next, scanContinue) else error_ s.

Definition state0_ (s : scanner) (c : ascii) : scanner * opcode :=
  if c =? "." then (setStep s stateDot, scanContinue)
  else if (c =? "e") || (c =? "E") then (setStep s stateE, scanContinue)
  else stateEndValue_ s c.

Definition state1_ (s : scanner) (c : ascii) : scanner * opcode :=
  if isDigit c then (setStep s state1, scanContinue) else state0_ s c.

Definition stateNeg_ (s : scanner) (c : ascii) : scanner * opcode :=
  if c =? "0" then (setStep s state0, scanContinue)
  else if ("1" <=? c) && (c <=? "9") then (setStep s state1, scanContinue)
  else error_ s.

Definition stateDot_ (s : scanner) (c : ascii) : scanner * opcode :=
  if isDigit c then (setStep s stateDot0, scanContinue) else error_ s.

Definition stateDot0_ (s : scanner) (c : ascii) : scanner * opcode :=
  if isDigit c then (s, scanContinue)
  else if (c =? "e") || (c =? "E") then (setStep s stateE, scanContinue)
  else stateEndValue_ s c.

Definition stateESign_ (s : scanner) (c : ascii) : scanner * opcode :=
  if isDigit c then (setStep s stateE0, scanContinue) else error_ s.

Definition stateE_ (s : scanner) (c : ascii) : scanner * opcode :=
  if (c =? "+") || (c =? "-") then (setStep s stateESign, scanContinue)
  else stateESign_ s c.

Definition stateE0_ (s : scanner) (c : ascii) : scanner * opcode :=
  if isDigit c then (s, scanContinue) else stateEndValue_ s c.

(** The states spelling out [true], [false] and [null]: the byte
    [want] leads to [next]. *)
Definition stateLit_ (want : ascii) (next : stepFn) (s : scanner) (c : ascii)
    : scanner * opcode :=
  if c =? want then (setStep s next, scanContinue) else error_ s.

(** [s.step(s, c)] *)
Definition stepOn (s : scanner) (c : ascii) : scanner * opcode :=
  match step s with
  | stateBeginValueOrEmpty => stateBeginValueOrEmpty_ s c
  | stateBeginValue => stateBeginValue_ s c
  | stateBeginStringOrEmpty => stateBeginStringOrEmpty_ s c
  | stateBeginString => stateBeginString_ s c
  | stateEndValue => stateEndValue_ s c
  | stateEndTop => stateEndTop_ s c
  | stateInString => stateInString_ s c
  | stateInStringEsc => stateInStringEsc_ s c
  | stateInStringEscU => stateHex_ stateInStringEscU1 s c
  | stateInStringEscU1 => stateHex_ stateInStringEscU12 s c
  | stateInStringEscU12 => stateHex_ stateInStringEscU123 s c
  | stateInStringEscU123 => stateHex_ stateInString s c
  | stateNeg => stateNeg_ s c
  | state1 => state1_ s c
  | state0 => state0_ s c
  | stateDot => stateDot_ s c
  | stateDot0 => stateDot0_ s c
  | stateE => stateE_ s c
  | stateESign => stateESign_ s c
  | stateE0 => stateE0_ s c
  | stateT => stateLit_ "r" stateTr s c
  | stateTr => stateLit_ "u" stateTru s c
  | stateTru => stateLit_ "e" stateEndValue s c
  | stateF => stateLit_ "a" stateFa s c
  | stateFa => stateLit_ "l" stateFal s c
  | stateFal => stateLit_ "s" stateFals s c
  | stateFals => stateLit_ "e" stateEndValue s c
  | stateN => stateLit_ "u" stateNu s c
  | stateNu => stateLit_ "l" stateNul s c
  | stateNul => stateLit_ "l" stateEndValue s c
  | stateError => (s, scanError)
  end.

Definition eof (s : scanner) : opcode :=
  if err s then scanError
  else if endTop s then scanEnd
  else
    let s' := fst (stepOn s " ") in
    if endTop s' then scanEnd else scanError.

(** The loop of [checkValid]: [None] when a step reports [scanError]. *)
Fixpoint scanBytes (s : scanner) (data : bytes) : option scanner :=
  match data with
  | [] => Some s
  | c :: data' =>
      match stepOn s c with
      | (_, scanError) => None
      | (s', _) => scanBytes s' data'
      end
  end.

(** [checkValid(data, scan) == nil] *)
Definition checkValid (data : bytes) : bool :=
  match scanBytes reset data with
  | None => false
  | Some s =>
      match eof s with
      | scanError => false
      | _ => true
      end
  end.

Definition Valid (data : bytes) : bool := checkValid data.

(** *** Reading the text

    The decoder trusts the scanner: it is only run on text that
    [checkValid] accepted, and finds the end of a literal the way
    [rescanLiteral] does. *)

#[warnings="-register-all"]
Inductive Value : Type :=
| Null
| Bool (b : bool)
| Number (lit : bytes)
| Str (s : bytes)                       (* the unquoted text *)
| Array (elems : list Value)
| Object (members : list (bytes * Value)).

Fixpoint skipSpace (s : bytes) : bytes :=
  match s with
  | c :: s' => if isSpace c then skipSpace s' else s
  | [] => []
  end.

(** The text of a string literal up to its closing quote, escapes not
    yet interpreted, and what follows the literal. *)
Fixpoint scanString (s : bytes) : option (bytes * bytes) :=
  match s with
  | [] => None
  | c :: s' =>
      if c =? dquote then Some ([], s')
      else if c =? "\" then
        match s' with
        | [] => None
        | d :: s'' =>
            match scanString s'' with
            | Some (body, rest) => Some (c :: d :: body, rest)
            | None => None
            end
        end
      else
        match scanString s' with
        | Some (body, rest) => Some (c :: body, rest)
        | None => None
        end
  end.

Definition isNumberByte (c : ascii) : bool :=
  isDigit c || (c =? ".") || (c =? "e") || (c =? "E") || (c =? "+") || (c =? "-").

Fixpoint scanNumber (s : bytes) : bytes * bytes :=
  match s with
  | c :: s' =>
      if isNumberByte c
      then let '(lit, rest) := scanNumber s' in (c :: lit, rest)
      else ([], s)
  | [] => ([], [])
  end.

Definition hexVal (c : ascii) : option N :=
  if isDigit c then Some (b2n c - b2n "0")%N
  else if ("a" <=? c) && (c <=? "f") then Some (b2n c - b2n "a" + 10)%N
  else if ("A" <=? c) && (c <=? "F") then Some (b2n c - b2n "A" + 10)%N
  else None.

(** [getu4 s]: the rune of a [\uXXXX] escape at the start of [s];
    [None] stands for -1. *)
Definition getu4 (s : bytes) : option N :=
  match s with
  | b :: u :: h1 :: h2 :: h3 :: h4 :: _ =>
      if (b =? "\") && (u =? "u") then
        match hexVal h1, hexVal h2, hexVal h3, hexVal h4 with
        | Some a, Some b, Some c, Some d =>
            Some (((a * 16 + b) * 16 + c) * 16 + d)%N
        | _, _, _, _ => None
        end
      else None
  | _ => None
  end.

(** The loop of [unquoteBytes] over the text between the quotes. *)
Fixpoint unquoteLoop (fuel : nat) (s : bytes) : option bytes :=
  match fuel with
  | O => None
  | S fuel' =>
      match s with
      | [] => Some []
      | c :: s' =>
          if c =? "\" then
            match s' with
            | [] => None
            | d :: s'' =>
                let plain (x : ascii) := cons x <$> unquoteLoop fuel' s'' in
                if (d =? dquote) || (d =? "\") || (d =? "/") || (d =? "'")
                then plain d
                else if d =? "b" then plain backspace
                else if d =? "f" then plain formfeed
                else if d =? "n" then plain newline
                else if d =? "r" then plain creturn
                else if d =? "t" then plain htab
                else if d =? "u" then
                  match getu4 s with
                  | None => None
                  | Some rr =>
                      let rest := drop 6 s in
                      if utf16.IsSurrogate rr then
                        let dec := utf16.DecodeRune rr (getu4 rest) in
                        if negb (dec =? unicode.ReplacementChar)%N
                        then app (utf8.EncodeRune dec) <$> unquoteLoop fuel' (drop 6 rest)
                        else app (utf8.EncodeRune unicode.ReplacementChar)
                               <$> unquoteLoop fuel' rest
                      else app (utf8.EncodeRune rr) <$> unquoteLoop fuel' rest
                  end
                else None
            end
          else if (c =? dquote) || (c <? " ") then None
          else if (b2n c <? utf8.RuneSelf)%N then cons c <$> unquoteLoop fuel' s'
          else
            (* coerce to well-formed UTF-8 *)
            let '(rr, size) := utf8.DecodeRuneInString s in
            app (utf8.EncodeRune rr) <$> unquoteLoop fuel' (drop size s)
      end
  end.

Definition unquote (body : bytes) : option bytes :=
  unquoteLoop (S (length body)) body.

Definition readString (s : bytes) : option (bytes * bytes) :=
  match scanString s with
  | Some (body, rest) =>
      match unquote body with
      | Some str => Some (str, rest)
      | None => None
      end
  | None => None
  end.

(** [readValue fuel s]: the value at the start of [s] and the text
    after it.  Between two calls that read no byte there is one that
    does, so fuel beyond twice the length of [s] is never used up. *)
Fixpoint readValue (fuel : nat) (s : bytes) : option (Value * bytes) :=
  match fuel with
  | O => None
  | S fuel' =>
      match skipSpace s with
      | [] => None
      | c :: rest =>
          if c =? "{" then
            match readObject fuel' rest with
            | Some (ms, rest') => Some (Object ms, rest')
            | None => None
            end
          else if c =? "[" then
            match readArray fuel' rest with
            | Some (vs, rest') => Some (Array vs, rest')
            | None => None
            end
          else if c =? dquote then
            match readString rest with
            | Some (str, rest') => Some (Str str, rest')
            | None => None
            end
          else if c =? "n" then Some (Null, drop 3 rest)
          else if c =? "t" then Some (Bool true, drop 3 rest)
          else if c =? "f" then Some (Bool false, drop 4 rest)
          else let '(lit, rest') := scanNumber (c :: rest) in Some (Number lit, rest')
      end
  end

(** The members of an object, after its opening brace or after a
    comma. *)
with readObject (fuel : nat) (s : bytes) : option (list (bytes * Value) * bytes) :=
  match fuel with
  | O => None
  | S fuel' =>
      match skipSpace s with
      | [] => None
      | c :: rest =>
          if c =? "}" then Some ([], rest)
          else if c =? dquote then
            match readString rest with
            | Some (key, rest1) =>
                match skipSpace rest1 with
                | colon :: rest2 =>
                    if colon =? ":" then
                      match readValue fuel' rest2 with
                      | Some (v, rest3) =>
                          match skipSpace rest3 with
                          | d :: rest4 =>
                              if d =? "}" then Some ([(key, v)], rest4)
                              else if d =? "," then
                                match readObject fuel' rest4 with
                                | Some (ms, rest5) => Some ((key, v) :: ms, rest5)
                                | None => None
                                end
                              else None
                          | [] => None
                          end
                      | None => None
                      end
                    else None
                | [] => None
                end
            | None => None
            end
          else None
      end
  end

(** The elements of an array, after its opening bracket or after a
    comma. *)
with readArray (fuel : nat) (s : bytes) : option (list Value * bytes) :=
  match fuel with
  | O => None
  | S fuel' =>
      match skipSpace s with
      | [] => None
      | c :: rest =>
          if c =? "]" then Some ([], rest)
          else
            match readValue fuel' (c :: rest) with
            | Some (v, rest1) =>
                match skipSpace rest1 with
                | d :: rest2 =>
                    if d =? "]" then Some ([v], rest2)
                    else if d =? "," then
                      match readArray fuel' rest2 with
                      | Some (vs, rest3) => Some (v :: vs, rest3)
                      | None => None
                      end
                    else None
                | [] => None
                end
            | None => None
            end
      end
  end.

(** The value a text spells. *)
Definition read (data : bytes) : option Value :=
  match readValue (2 * length data + 2) data with
  | Some (v, _) => Some v
  | None => None
  end.

(** *** Storing into a [JSONResponse] *)

(** The fields of the target struct, by their [json] names. *)
Inductive field : Type := fHeaders | fBody.

Definition fieldName (f : field) : string :=
  match f with
  | fHeaders => "headers"%string
  | fBody => "body"%string
  end.

(** [foldRune r]: the smallest rune that differs from [r] by case only.
    Of the runes beyond ASCII only the long s and the Kelvin sign fold
    to an ASCII letter; the others are left as they are, which cannot
    change a comparison with the two ASCII names of this struct. *)
Definition foldRune (r : N) : N :=
  if (r =? 0x17F)%N then 0x53%N
  else if (r =? 0x212A)%N then 0x4B%N
  else r.

Fixpoint foldLoop (fuel : nat) (s : bytes) : bytes :=
  match fuel with
  | O => []
  | S fuel' =>
      match s with
      | [] => []
      | c :: s' =>
          if (b2n c <? utf8.RuneSelf)%N then
            (if ("a" <=? c) && (c <=? "z")
             then ascii_of_N (b2n c - 32) else c) :: foldLoop fuel' s'
          else
            let '(r, n) := utf8.DecodeRuneInString s in
            utf8.EncodeRune (foldRune r) ++ foldLoop fuel' (drop n s)
      end
  end.

Definition foldName (s : bytes) : bytes := foldLoop (length s) s.

(** The field for a key: the one with exactly this name, else the one
    whose name is the same up to case. *)
Definition lookupField (key : bytes) : option field :=
  if bool_decide (key = bytesOf (fieldName fHeaders)) then Some fHeaders
  else if bool_decide (key = bytesOf (fieldName fBody)) then Some fBody
  else if bool_decide (foldName key = foldName (bytesOf (fieldName fHeaders)))
  then Some fHeaders
  else if bool_decide (foldName key = foldName (bytesOf (fieldName fBody)))
  then Some fBody
  else None.

(** The text of an [UnmarshalTypeError]: JSON value [value] does not fit
    the Go type [type]; [fld] is the path from the struct to the value
    being decoded, if there is one: the name of the field and, inside the
    map, the key. *)
Definition UnmarshalTypeError (value : string) (fld : option string)
    (type : string) : error :=
  match fld with
  | Some path => ("json: cannot unmarshal " +:+ value
                  +:+ " into Go struct field JSONResponse."
                  +:+ path +:+ " of type " +:+ type)%string
  | None => ("json: cannot unmarshal " +:+ value +:+ " into Go value of type "
             +:+ type)%string
  end.

(** Only the first error is kept. *)
Definition saveError (saved : option error) (e : error) : option error :=
  match saved with
  | Some _ => saved
  | None => Some e
  end.

(** The name [UnmarshalTypeError] uses for the kind of a JSON value. *)
Definition kindOf (v : Value) : string :=
  match v with
  | Null => "null"%string
  | Bool _ => "bool"%string
  | Number _ => "number"%string
  | Str _ => "string"%string
  | Array _ => "array"%string
  | Object _ => "object"%string
  end.

(** A value stored into a Go string that holds [cur]; [path] leads to
    that string. *)
Definition storeString (path : string) (v : Value) (cur : string)
    (saved : option error) : string * option error :=
  match v with
  | Str s => (stringOf s, saved)
  | Null => (cur, saved)
  | _ => (cur, saveError saved (UnmarshalTypeError (kindOf v) (Some path) "string"))
  end.

(** The members of an object stored into a map: every element starts
    from the zero string, and its path ends in its key. *)
Fixpoint storeMembers (ms : list (bytes * Value)) (m : gmap string string)
    (saved : option error) : gmap string string * option error :=
  match ms with
  | [] => (m, saved)
  | (key, v) :: ms' =>
      let '(elem, saved') :=
        storeString (fieldName fHeaders +:+ "." +:+ stringOf key) v "" saved in
      storeMembers ms' (<[stringOf key := elem]> m) saved'
  end.

(** A value stored into a [map[string]string] that holds [cur]: an
    object fills the map, making one if it is nil; null makes it nil. *)
Definition storeMap (v : Value) (cur : option (gmap string string))
    (saved : option error) : option (gmap string string) * option error :=
  match v with
  | Object ms =>
      let '(m, saved') := storeMembers ms (default ∅ cur) saved in
      (Some m, saved')
  | Null => (None, saved)
  | _ => (cur, saveError saved
                 (UnmarshalTypeError (kindOf v) (Some (fieldName fHeaders))
                    "map[string]string"))
  end.

(** The members of the top-level object, in order; keys that name no
    field are skipped. *)
Fixpoint storeFields (ms : list (bytes * Value)) (resp : JSONResponse)
    (saved : option error) : JSONResponse * option error :=
  match ms with
  | [] => (resp, saved)
  | (key, v) :: ms' =>
      match lookupField key with
      | Some fHeaders =>
          let '(h, saved') := storeMap v (Headers resp) saved in
          storeFields ms' {| Headers := h; Body := Body resp |} saved'
      | Some fBody =>
          let '(b, saved') := storeString (fieldName fBody) v (Body resp) saved in
          storeFields ms' {| Headers := Headers resp; Body := b |} saved'
      | None => storeFields ms' resp saved
      end
  end.

Definition store (v : Value) (resp : JSONResponse) : JSONResponse * option error :=
  match v with
  | Object ms => storeFields ms resp None
  | Null => (resp, None)
  | _ => (resp, Some (UnmarshalTypeError (kindOf v) None "llm.JSONResponse"))
  end.

(** [Unmarshal(data, &resp)]: the new contents of [resp] and the
    error.  The text of a syntax error is not modelled; the last case is
    the panic of a decoder that finds no value in text the scanner
    accepted. *)
Definition Unmarshal (data : bytes) (resp : JSONResponse)
    : JSONResponse * option error :=
  if negb (checkValid data) then (resp, Some "invalid character in JSON input"%string)
  else
    match read data with
    | Some v => store v resp
    | None => (resp, Some "JSON decoder out of sync - data changing underfoot?"%string)
    end.

End json.

(** ** github.com/go-playground/validator *)
Module validator.

Definition fieldErrMsg (ns fld tag : string) : string :=
  "Key: '" +:+ ns +:+ "' Error:Field validation for '" +:+ fld
  +:+ "' failed on the '" +:+ tag +:+ "' tag".

(** The [required] tag, as the library documents it: the value must not
    be the zero value of its type; for a string this means it is not
    empty, for a map that it is not nil.  An empty map that is not nil
    has a value. *)
Definition hasValue_map (m : option (gmap string string)) : bool :=
  match m with
  | Some _ => true
  | None => false
  end.

Definition hasValue_string (s : string) : bool := negb (String.eqb s "").

(** [validate.Struct(resp)]: the fields are checked in the order of
    their declaration; the error lists every failed field, one per
    line. *)
Definition Struct (resp : JSONResponse) : option error :=
  let errs :=
    (if hasValue_map (Headers resp) then []
     else [fieldErrMsg "JSONResponse.Headers" "Headers" "required"])
    ++ (if hasValue_string (Body resp) then []
        else [fieldErrMsg "JSONResponse.Body" "Body" "required"]) in
  match errs with
  | [] => None
  | _ :: _ =>
      Some (stringOf (gostrings.TrimSpace
             (bytesOf (String.concat "" (map (fun e => e +:+ String "010" "") errs)))))
  end.

End validator.
(** ** package llm: response cleaning *)

(** The pattern [^```(?:json)?|```] as [regexp.MustCompile] parses it. *)
Definition fenceRe : regexp.Regexp :=
  regexp.OpAlternate
    (regexp.OpConcat regexp.OpBeginText
       (regexp.OpConcat (regexp.OpLiteral "```")
          (regexp.OpQuest (regexp.OpLiteral "json"))))
    (regexp.OpLiteral "```").

Definition TrimSpace (s : string) : string :=
  stringOf (gostrings.TrimSpace (bytesOf s)).

Definition cleanResponse (input : string) : string :=
  (* Remove markdown code block backticks and json specifier. *)
  let re := fenceRe in
  let cleaned := regexp.ReplaceAllString re input "" in
  TrimSpace cleaned.

(** *** What the cleaning step amounts to

    Definitions used to state properties of [cleanResponse]; they are not
    part of the package. *)

Definition ticks : bytes := bytesOf "```".
Definition jsonFence : bytes := bytesOf "```json".

Definition isTick (c : ascii) : bool := Ascii.eqb "`"%char c.

(** [stripTicks s]: [s] without its triple backticks, found from left to
    right and not overlapping. *)
Fixpoint stripTicks (s : bytes) : bytes :=
  match s with
  | [] => []
  | a :: t =>
      match t with
      | b :: c :: r =>
          if isTick a && isTick b && isTick c then stripTicks r
          else a :: stripTicks t
      | _ => a :: stripTicks t
      end
  end.

(** [dropJsonFence s]: [s] without a leading [```json]. *)
Definition dropJsonFence (s : bytes) : bytes :=
  match stripPrefix jsonFence s with
  | Some r => r
  | None => s
  end.

(** [hasFence s]: a triple backtick occurs somewhere in [s]. *)
Fixpoint hasFence (s : bytes) : bool :=
  match s with
  | [] => false
  | _ :: t => HasPrefix s ticks || hasFence t
  end.

(** [lead1 l], [lead2 l]: the first byte, the first two bytes of [l] are
    backticks. *)
Definition lead1 (l : bytes) : bool :=
  match l with
  | x :: _ => isTick x
  | [] => false
  end.

Definition lead2 (l : bytes) : bool :=
  match l with
  | x :: l' => isTick x && lead1 l'
  | [] => false
  end.

(** The cleaning step as the specification words it: one leading fence
    marker, optionally tagged json, and one trailing fence marker are
    removed, then the white space around the text; nothing else. *)
Definition stripLeadingFence (s : bytes) : bytes :=
  match stripPrefix jsonFence s with
  | Some r => r
  | None =>
      match stripPrefix ticks s with
      | Some r => r
      | None => s
      end
  end.

Definition stripTrailingFence (s : bytes) : bytes :=
  match stripPrefix (rev ticks) (rev s) with
  | Some r => rev r
  | None => s
  end.

Definition cleanResponse_single_pair (input : string) : string :=
  TrimSpace (stringOf (stripTrailingFence (stripLeadingFence (bytesOf input)))).


(** ** What the package takes from its surroundings

    Types and functions of other packages that [llm.go] only passes
    around or calls: the context, the HTTP request and its dump, the
    formatting of the user prompt, 64-bit floats. *)
Class Externals : Type := {
  context_Context : Type;                       (* context.Context *)
  float64 : Type;
  http_Request : Type;                          (* *http.Request *)
  (** [httputil.DumpRequest(r, body)] *)
  DumpRequest : http_Request -> bool -> bytes * option error;
  (** [fmt.Sprintf(format, a)] with one string operand *)
  Sprintf : string -> string -> string
}.

(** ** github.com/tmc/langchaingo/llms *)
Module llms.

Inductive ChatMessageType : Type :=
| ChatMessageTypeAI | ChatMessageTypeHuman | ChatMessageTypeSystem
| ChatMessageTypeGeneric | ChatMessageTypeFunction | ChatMessageTypeTool.

(** Of the kinds of content parts the package makes text parts only. *)
Inductive ContentPart : Type := TextContent (Text : string).

Record MessageContent : Type := {
  Role : ChatMessageType;
  Parts : list ContentPart
}.

(** [TextParts(role, parts...)]: a message with one text part per
    string. *)
Definition TextParts (role : ChatMessageType) (parts : list string) : MessageContent :=
  {| Role := role; Parts := map TextContent parts |}.

Record ContentChoice : Type := {
  Content : string;
  StopReason : string
}.

Record ContentResponse : Type := { Choices : list ContentChoice }.

Inductive CallOption `{Externals} : Type :=
| WithJSONMode
| WithTemperature (temperature : float64).

(** The [Model] interface.  A nil [*ContentResponse] is [None]. *)
Record Model `{Externals} : Type := {
  GenerateContent :
    context_Context -> list MessageContent -> list CallOption ->
    option ContentResponse * option error
}.

End llms.

(** ** internal/config *)
Module config.

(** Modelled from the spec: package [internal/config] is not among the
    sources.  Of its [Config] the package reads the two prompt
    templates: the system prompt and the user prompt with one
    placeholder for the request. *)
Record Config : Type := {
  SystemPrompt : string;
  UserPrompt : string
}.

End config.

(** ** package llm *)

(** [Config] holds configuration settings for the LLM. *)
Record Config `{Externals} : Type := {
  APIKey : string;
  CloudLocation : string;
  CloudProject : string;
  Model : string;
  Provider : string;
  ServerURL : string;
  Temperature : float64
}.

(** The initialisers of the six backends live in another file of the
    package, which is not among the sources. *)
Class Initialisers `{Externals} : Type := {
  initOpenAIClient : Config -> option llms.Model * option error;
  initGoogleAIClient : context_Context -> Config -> option llms.Model * option error;
  initVertexClient : context_Context -> Config -> option llms.Model * option error;
  initAnthropicClient : Config -> option llms.Model * option error;
  initCohereClient : Config -> option llms.Model * option error;
  initOllamaClient : Config -> option llms.Model * option error
}.

Definition supportsSystemPrompt : gmap string bool :=
  <["openai" := true]> (<["anthropic" := true]> (<["ollama" := true]>
    (<["cohere" := true]> ∅))).

(** [m[k]] on a Go map of booleans: a missing key reads as false. *)
Definition index (m : gmap string bool) (k : string) : bool :=
  default false (m !! k).

Section Package.
Context `{Ext : Externals} `{Init : !Initialisers}.

(** [New] initializes the LLM client based on the provided
    configuration. *)
Definition New (ctx : context_Context) (config : Config)
    : option llms.Model * option error :=
  let provider := Provider config in
  if String.eqb provider "openai" then initOpenAIClient config
  else if String.eqb provider "googleai" then initGoogleAIClient ctx config
  else if String.eqb provider "gcp-vertex" then initVertexClient ctx config
  else if String.eqb provider "anthropic" then initAnthropicClient config
  else if String.eqb provider "cohere" then initCohereClient config
  else if String.eqb provider "ollama" then initOllamaClient config
  else (None, Some "unsupported llm provider").

(** [ValidateJSON] validates the JSON structure of the input. *)
Definition ValidateJSON (jsonStr : string) : option error :=
  let jsonBytes := bytesOf jsonStr in
  (* Check if the JSON format is correct *)
  if negb (json.Valid jsonBytes) then Some "input is not valid JSON"
  else
    (* Try to unmarshal the JSON into the struct *)
    let '(resp, err) := json.Unmarshal jsonBytes zeroResponse in
    match err with
    | Some err => Some ("error unmarshalling JSON: " +:+ err)
    | None =>
        (* Validate the struct using the validator package *)
        match validator.Struct resp with
        | Some err => Some ("validation error: " +:+ err)
        | None => None
        end
    end.

(** [GenerateLLMResponse] generates a response from the LLM using the
    input message. *)
Definition GenerateLLMResponse (ctx : context_Context) (model : llms.Model)
    (temperature : float64) (messages : list llms.MessageContent)
    : string * option error :=
  let '(response, err) :=
    llms.GenerateContent model ctx messages
      [llms.WithJSONMode; llms.WithTemperature temperature] in
  match err with
  | Some err => ("", Some ("contentGenerationError: " +:+ err))
  | None =>
      match response with
      | None => ("", Some "emptyLLMResponse: response is nil")
      | Some response =>
          match llms.Choices response with
          | [] => ("", Some "emptyLLMResponse: no choices available")
          | choice0 :: _ =>
              let content := llms.Content choice0 in
              if String.eqb content ""
              then ("", Some "emptyLLMResponse: content of first choice is empty")
              else
                let resp := cleanResponse content in
                match ValidateJSON resp with
                | Some err => (resp, Some ("invalidJSONResponse: " +:+ err))
                | None => (resp, None)
                end
          end
      end
  end.

(** The call [GenerateLLMResponse] makes to the model. *)
Definition theCall (ctx : context_Context) (model : llms.Model)
    (temperature : float64) (messages : list llms.MessageContent)
    : option llms.ContentResponse * option error :=
  llms.GenerateContent model ctx messages
    [llms.WithJSONMode; llms.WithTemperature temperature].

(** [CreateMessageContent] creates the message content to be processed
    by the LLM.  The nil slice is the empty list. *)
Definition CreateMessageContent (r : http_Request) (cfg : config.Config)
    (provider : string) : list llms.MessageContent * option error :=
  let '(httpReq, err) := DumpRequest r true in
  match err with
  | Some err => ([], Some err)
  | None =>
      let userPrompt := Sprintf (config.UserPrompt cfg) (TrimSpace (stringOf httpReq)) in
      let systemPrompt := config.SystemPrompt cfg in
      if index supportsSystemPrompt provider then
        ([llms.TextParts llms.ChatMessageTypeSystem [systemPrompt];
          llms.TextParts llms.ChatMessageTypeHuman [userPrompt]], None)
      else
        ([llms.TextParts llms.ChatMessageTypeHuman
            [systemPrompt +:+ String "010" "" +:+ userPrompt]], None)
  end.

End Package.

(** *** Error kinds

    The errors of the package are texts; the kind of an error is what
    stands before its first colon. *)
Fixpoint errorKind (e : error) : string :=
  match e with
  | EmptyString => EmptyString
  | String c e' => if Ascii.eqb c ":" then EmptyString else String c (errorKind e')
  end.

(** *** Writing JSON texts

    [dq s] is [s] with every apostrophe replaced by a double quote. *)
Fixpoint dq (s : string) : string :=
  match s with
  | EmptyString => EmptyString
  | String c s' => String (if Ascii.eqb c "'" then "034"%char else c) (dq s')
  end.

(** A model that answers every call with the same response. *)
Definition constModel `{Externals} (response : option llms.ContentResponse)
    (err : option error) : llms.Model :=
  {| llms.GenerateContent := fun _ _ _ => (response, err) |}.

(** A response with the given texts as its choices. *)
Definition choices (texts : list string) : llms.ContentResponse :=
  {| llms.Choices := map (fun t => {| llms.Content := t; llms.StopReason := "" |}) texts |}.

(** *** Stand-ins for running the package on concrete inputs

    A request is the text of its dump, formatting appends the operand to
    the format, and no backend is configured. *)
Definition testExternals : Externals :=
  {| context_Context := unit;
     float64 := unit;
     http_Request := string;
     DumpRequest := fun r _ => (bytesOf r, None);
     Sprintf := fun format a => format +:+ a |}.

Definition testInitialisers : @Initialisers testExternals :=
  {| initOpenAIClient := fun _ => (None, Some "not configured");
     initGoogleAIClient := fun _ _ => (None, Some "not configured");
     initVertexClient := fun _ _ => (None, Some "not configured");
     initAnthropicClient := fun _ => (None, Some "not configured");
     initCohereClient := fun _ => (None, Some "not configured");
     initOllamaClient := fun _ => (None, Some "not configured") |}.

Definition testConfig (provider : string) : @Config testExternals :=
  @Build_Config testExternals "" "" "" "" provider "" tt.

(** Initialisers that can be told apart: each fails with an error that
    names its provider. *)
Definition namedInitialisers : @Initialisers testExternals :=
  {| initOpenAIClient := fun _ => (None, Some "openai: not configured");
     initGoogleAIClient := fun _ _ => (None, Some "googleai: not configured");
     initVertexClient := fun _ _ => (None, Some "gcp-vertex: not configured");
     initAnthropicClient := fun _ => (None, Some "anthropic: not configured");
     initCohereClient := fun _ => (None, Some "cohere: not configured");
     initOllamaClient := fun _ => (None, Some "ollama: not configured") |}.

(** The answer of the tests in the specification: a fenced JSON object. *)
Definition fencedAnswer : string :=
  "```json" +:+ String "010" "" +:+ dq "{'headers':{'a':'b'},'body':'x'}"
  +:+ String "010" "" +:+ "```".

(** *** Fenced answers

    [fenced tag j]: the text [j] as a markdown code block, the way models
    wrap their answers: an opening fence with [tag] behind it, a line
    feed, [j], a line feed and the closing fence. *)
Definition lf : ascii := "010"%char.

Definition fenced (tag j : string) : string :=
  "```" +:+ tag +:+ String lf (j +:+ String lf "```").

(** [headerValue v]: a JSON value that can be stored as the value of a
    header, a string or null. *)
Definition headerValue (v : json.Value) : bool :=
  match v with
  | json.Str _ | json.Null => true
  | _ => false
  end.

(** * Properties of the library models *)

Lemma stringOf_bytesOf (s : string) : stringOf (bytesOf s) = s.
Proof. apply string_of_list_ascii_of_string. Qed.

Lemma bytesOf_stringOf (b : bytes) : bytesOf (stringOf b) = b.
Proof. apply list_ascii_of_string_of_list_ascii. Qed.

Lemma length_bytesOf (s : string) : length (bytesOf s) = String.length s.
Proof. induction s as [|c s IH]; simpl; [reflexivity | now rewrite IH]. Qed.

Section RegexpFacts.
Import regexp.

Lemma stripPrefix_app (p r : bytes) : stripPrefix p (p ++ r) = Some r.
Proof.
  induction p as [|a p IH]; simpl; [reflexivity|].
  now rewrite Ascii.eqb_refl.
Qed.

Lemma stripPrefix_Some (p s r : bytes) :
  stripPrefix p s = Some r -> s = p ++ r.
Proof.
  revert s. induction p as [|a p IH]; intros s; simpl.
  - now intros [= ->].
  - destruct s as [|b s]; [discriminate|].
    destruct (Ascii.eqb_spec a b) as [->|]; [|discriminate].
    intros H. now rewrite (IH _ H).
Qed.

(** At offset 0 the anchored branch is tried first: it takes the
    backticks and, when it is there, the json tag. *)
Lemma matchAt_fence_0 (s : bytes) :
  matchAt fenceRe 0 s =
  match stripPrefix ticks s with
  | Some r => if HasPrefix r (bytesOf "json") then Some 7%nat else Some 3%nat
  | None => None
  end.
Proof.
  unfold matchAt, fenceRe, HasPrefix. cbn [backtrack Nat.eqb].
  fold ticks.
  destruct (stripPrefix ticks s) as [r|]; [|reflexivity].
  destruct (stripPrefix (bytesOf "json") r); reflexivity.
Qed.

(** Anywhere else only the second branch can match. *)
Lemma matchAt_fence_S (pos : nat) (s : bytes) :
  matchAt fenceRe (S pos) s =
  if HasPrefix s ticks then Some (S pos + 3)%nat else None.
Proof.
  unfold matchAt, fenceRe, HasPrefix. cbn [backtrack Nat.eqb].
  fold ticks.
  destruct (stripPrefix ticks s); reflexivity.
Qed.

End RegexpFacts.

(** ** Triple backticks *)
Section Fences.
Import regexp.

Lemma stripPrefix_app_l (p s r v : bytes) :
  stripPrefix p s = Some r -> stripPrefix p (s ++ v) = Some (r ++ v).
Proof.
  intros H. rewrite (stripPrefix_Some _ _ _ H), <- app_assoc.
  apply stripPrefix_app.
Qed.

Lemma ticks_eq : ticks = ["`"; "`"; "`"]%char.
Proof. reflexivity. Qed.

Lemma jsonFence_eq : jsonFence = ticks ++ bytesOf "json".
Proof. reflexivity. Qed.

Lemma HasPrefix_ticks_3 (a b c : ascii) (r : bytes) :
  HasPrefix (a :: b :: c :: r) ticks = isTick a && isTick b && isTick c.
Proof.
  unfold HasPrefix, isTick. rewrite ticks_eq. cbn [stripPrefix].
  destruct (Ascii.eqb "`" a), (Ascii.eqb "`" b), (Ascii.eqb "`" c); reflexivity.
Qed.

Lemma HasPrefix_ticks_short (s : bytes) :
  (length s < 3)%nat -> HasPrefix s ticks = false.
Proof.
  unfold HasPrefix. rewrite ticks_eq.
  destruct s as [|a [|b [|c r]]]; cbn [stripPrefix length]; intros;
    try lia; try reflexivity.
  - now destruct (Ascii.eqb "`" a).
  - now destruct (Ascii.eqb "`" a), (Ascii.eqb "`" b).
Qed.

Lemma HasPrefix_true (s p : bytes) :
  HasPrefix s p = true -> exists r, s = p ++ r.
Proof.
  unfold HasPrefix. destruct (stripPrefix p s) as [r|] eqn:E; [|discriminate].
  intros _. exists r. now apply stripPrefix_Some.
Qed.

Lemma stripTicks_fence (r : bytes) : stripTicks (ticks ++ r) = stripTicks r.
Proof. reflexivity. Qed.

Lemma stripTicks_nofence (c : ascii) (s : bytes) :
  HasPrefix (c :: s) ticks = false -> stripTicks (c :: s) = c :: stripTicks s.
Proof.
  destruct s as [|b [|d r]]; try reflexivity.
  rewrite HasPrefix_ticks_3. cbn [stripTicks]. now intros ->.
Qed.

(** Induction following the equations of [stripTicks]. *)
Lemma stripTicks_ind (P : bytes -> Prop) :
  P [] ->
  (forall r, P r -> P (ticks ++ r)) ->
  (forall c s, HasPrefix (c :: s) ticks = false -> P s -> P (c :: s)) ->
  forall s, P s.
Proof.
  intros Hnil Hfence Hcons s.
  remember (length s) as n eqn:Hn. revert s Hn.
  induction n as [n IH] using lt_wf_ind. intros s ->.
  destruct s as [|c s]; [exact Hnil|].
  destruct (HasPrefix (c :: s) ticks) eqn:E.
  - destruct (HasPrefix_true _ _ E) as [r Hr]. rewrite Hr.
    apply Hfence. apply (IH (length r)); [|reflexivity].
    rewrite Hr, length_app. simpl. lia.
  - apply Hcons; [exact E|]. apply (IH (length s)); [simpl; lia | reflexivity].
Qed.

Lemma hasFence_app (u v : bytes) :
  hasFence (u ++ v) = false -> hasFence u = false /\ hasFence v = false.
Proof.
  induction u as [|c u IH]; [now split|].
  cbn [app hasFence].
  intros H. apply orb_false_iff in H as [H1 H2].
  destruct (IH H2) as [Hu Hv]. split; [|exact Hv].
  apply orb_false_iff. split; [|exact Hu].
  destruct (HasPrefix (c :: u) ticks) eqn:E; [|reflexivity].
  unfold HasPrefix in E, H1.
  destruct (stripPrefix ticks (c :: u)) as [r|] eqn:E'; [|discriminate].
  change (c :: u ++ v) with ((c :: u) ++ v) in H1.
  now rewrite (stripPrefix_app_l _ _ _ v E') in H1.
Qed.

Lemma hasFence_head (s : bytes) :
  hasFence s = false -> HasPrefix s ticks = false.
Proof.
  destruct s as [|c s]; cbn [hasFence].
  - intros _. apply HasPrefix_ticks_short. simpl. lia.
  - intros H. now apply orb_false_iff in H as [H _].
Qed.

Lemma HasPrefix_ticks_cons (c : ascii) (l : bytes) :
  HasPrefix (c :: l) ticks = isTick c && lead2 l.
Proof.
  destruct l as [|x [|y l]].
  - rewrite HasPrefix_ticks_short by (simpl; lia). cbn. now rewrite andb_false_r.
  - rewrite HasPrefix_ticks_short by (simpl; lia). cbn.
    now rewrite !andb_false_r.
  - rewrite HasPrefix_ticks_3. cbn [lead2 lead1]. now rewrite andb_assoc.
Qed.

Lemma lead1_stripTicks (s : bytes) :
  lead1 (stripTicks s) = true -> lead1 s = true.
Proof.
  induction s as [| r IH | c s Hc IH] using stripTicks_ind.
  - intros H. exact H.
  - intros _. reflexivity.
  - now rewrite (stripTicks_nofence _ _ Hc).
Qed.

Lemma lead2_stripTicks (s : bytes) :
  lead2 (stripTicks s) = true -> lead2 s = true.
Proof.
  induction s as [| r IH | c s Hc IH] using stripTicks_ind.
  - intros H. exact H.
  - intros _. reflexivity.
  - rewrite (stripTicks_nofence _ _ Hc). cbn [lead2].
    intros H. apply andb_true_iff in H as [H1 H2].
    now rewrite H1, (lead1_stripTicks _ H2).
Qed.

(** What is left after [stripTicks] does not start with a fence ... *)
Lemma stripTicks_head (s : bytes) : HasPrefix (stripTicks s) ticks = false.
Proof.
  induction s as [| r IH | c s Hc IH] using stripTicks_ind.
  - reflexivity.
  - now rewrite stripTicks_fence.
  - rewrite (stripTicks_nofence _ _ Hc).
    rewrite HasPrefix_ticks_cons in Hc |- *.
    destruct (isTick c); [|reflexivity].
    destruct (lead2 (stripTicks s)) eqn:E; [|reflexivity].
    now rewrite (lead2_stripTicks _ E) in Hc.
Qed.

(** ... and contains none. *)
Lemma hasFence_stripTicks (s : bytes) : hasFence (stripTicks s) = false.
Proof.
  induction s as [| r IH | c s Hc IH] using stripTicks_ind.
  - reflexivity.
  - now rewrite stripTicks_fence.
  - pose proof (stripTicks_head (c :: s)) as Hh.
    rewrite (stripTicks_nofence _ _ Hc) in Hh |- *.
    cbn [hasFence]. now rewrite Hh, IH.
Qed.

Lemma stripTicks_id (s : bytes) : hasFence s = false -> stripTicks s = s.
Proof.
  induction s as [|c s IH]; [reflexivity|].
  intros H. pose proof (hasFence_head _ H) as Hh.
  cbn [hasFence] in H. apply orb_false_iff in H as [_ H].
  rewrite (stripTicks_nofence _ _ Hh). now rewrite IH.
Qed.

Lemma stripPrefix_cat (p q s : bytes) :
  stripPrefix (p ++ q) s =
  match stripPrefix p s with
  | Some r => stripPrefix q r
  | None => None
  end.
Proof.
  revert s. induction p as [|a p IH]; intros s; [reflexivity|].
  cbn [app stripPrefix]. destruct s as [|b s]; [reflexivity|].
  destruct (Ascii.eqb a b); [apply IH | reflexivity].
Qed.

Lemma stripPrefix_jsonFence (s : bytes) :
  stripPrefix jsonFence s =
  match stripPrefix ticks s with
  | Some r => stripPrefix (bytesOf "json") r
  | None => None
  end.
Proof. rewrite jsonFence_eq. apply stripPrefix_cat. Qed.

Lemma dropJsonFence_id (s : bytes) :
  HasPrefix s ticks = false -> dropJsonFence s = s.
Proof.
  unfold dropJsonFence, HasPrefix. rewrite stripPrefix_jsonFence.
  now destruct (stripPrefix ticks s).
Qed.

End Fences.

(** ** The replacement loop on the fence pattern *)
Section ReplaceFences.
Import regexp.

(** Past offset 0 the loop removes every triple backtick. *)
Lemma replaceAll_fence_S (fuel : nat) :
  forall (s : bytes) (pos last : nat),
    (length s < fuel)%nat ->
    replaceAll fuel fenceRe [] (S pos) last s = stripTicks s.
Proof.
  induction fuel as [|fuel IH]; intros s pos last Hlen; [lia|].
  cbn [replaceAll]. rewrite matchAt_fence_S.
  change (S pos + 3)%nat with (S (pos + 3)).
  destruct (HasPrefix s ticks) eqn:E.
  - destruct (HasPrefix_true _ _ E) as [r ->].
    assert ((S pos <? S (pos + 3))%nat = true) as -> by (apply Nat.ltb_lt; lia).
    replace (S (pos + 3) - S pos)%nat with (length ticks) by (simpl; lia).
    rewrite drop_app_length, stripTicks_fence.
    rewrite IH by (rewrite length_app in Hlen; simpl in Hlen; lia).
    now destruct (_ || _).
  - destruct s as [|c s]; [reflexivity|].
    rewrite (stripTicks_nofence _ _ E).
    rewrite IH by (simpl in Hlen; lia). reflexivity.
Qed.

(** The whole replacement: a leading [```json] goes, then every triple
    backtick. *)
Lemma ReplaceAllString_fence (src : string) :
  ReplaceAllString fenceRe src "" =
  stringOf (stripTicks (dropJsonFence (bytesOf src))).
Proof.
  unfold ReplaceAllString. f_equal.
  rewrite <- length_bytesOf. change (bytesOf "") with (@nil ascii).
  generalize (bytesOf src). clear src. intros s.
  cbn [replaceAll]. rewrite matchAt_fence_0.
  unfold dropJsonFence. rewrite stripPrefix_jsonFence.
  destruct (stripPrefix ticks s) as [r|] eqn:E.
  - pose proof (stripPrefix_Some _ _ _ E) as ->.
    unfold HasPrefix.
    destruct (stripPrefix (bytesOf "json") r) as [r'|] eqn:E'.
    + pose proof (stripPrefix_Some _ _ _ E') as ->.
      cbn [Nat.ltb Nat.leb Nat.eqb orb app Nat.sub].
      rewrite app_assoc.
      change 7%nat with (length (ticks ++ bytesOf "json")) at 3.
      rewrite drop_app_length.
      apply replaceAll_fence_S.
      rewrite !length_app. simpl. lia.
    + cbn [Nat.ltb Nat.leb Nat.eqb orb app Nat.sub].
      change 3%nat with (length ticks) at 3.
      rewrite drop_app_length, stripTicks_fence.
      apply replaceAll_fence_S.
      rewrite !length_app. simpl. lia.
  - assert (HasPrefix s ticks = false) as Hs by (unfold HasPrefix; now rewrite E).
    destruct s as [|c s]; [reflexivity|].
    rewrite (stripTicks_nofence _ _ Hs). f_equal.
    apply replaceAll_fence_S. simpl. lia.
Qed.

End ReplaceFences.

(** ** UTF-8 decoding and white space *)
Section Utf8Facts.
Import utf8.

Lemma first_cases (b : N) :
  first b = as_ \/ first b = xx \/ first b = s1 \/ first b = s2 \/ first b = s3
  \/ first b = s4 \/ first b = s5 \/ first b = s6 \/ first b = s7.
Proof. unfold first. repeat case_match; auto 20. Qed.

Ltac hdr_const k :=
  let v1 := eval vm_compute in (as_ <=? k) in change (as_ <=? k) with v1;
  try (let v2 := eval vm_compute in (N.odd k) in change (N.odd k) with v2);
  try (let v3 := eval vm_compute in (N.to_nat (N.land k 7)) in
       change (N.to_nat (N.land k 7)) with v3);
  try (let v4 := eval vm_compute in (acceptRanges (N.shiftr k 4)) in
       change (acceptRanges (N.shiftr k 4)) with v4);
  cbv iota zeta; cbn [fst snd Nat.leb].

Ltac hdr_cases b :=
  unfold DecodeRuneInString; cbv zeta;
  destruct (first_cases b) as [H|[H|[H|[H|[H|[H|[H|[H|H]]]]]]]];
  rewrite !H; clear H;
  [ hdr_const as_ | hdr_const xx | hdr_const s1 | hdr_const s2 | hdr_const s3
  | hdr_const s4 | hdr_const s5 | hdr_const s6 | hdr_const s7 ].

Lemma at_app_l (u v : bytes) (i : nat) :
  (i < length u)%nat -> at_ (u ++ v) i = at_ u i.
Proof. intros H. unfold at_. now rewrite app_nth1. Qed.

Lemma IsSpace_RuneError : unicode.IsSpace RuneError = false.
Proof. reflexivity. Qed.

Lemma Decode_app (u v : bytes) :
  unicode.IsSpace (fst (DecodeRuneInString u)) = true ->
  DecodeRuneInString (u ++ v) = DecodeRuneInString u.
Proof.
  intros H. destruct u as [|c w]; [discriminate|]. revert H.
  assert (at_ ((c :: w) ++ v) 0 = at_ (c :: w) 0) as E0
    by (apply at_app_l; simpl; lia).
  unfold DecodeRuneInString at 2. cbv zeta. rewrite E0.
  hdr_cases (at_ (c :: w) 0).
  all: rewrite ?E0.
  all: rewrite length_app; cbn [length Nat.add]; 
       change (S (length w) <? 1)%nat with false;
       change (S (length w + length v) <? 1)%nat with false; cbv iota.
  1,2: reflexivity.
  all: match goal with |- context [(S (length ?l) <? ?k)%nat] =>
         destruct (Nat.ltb_spec (S (length l)) k) as [Hk|Hk];
         [cbn [fst]; rewrite IsSpace_RuneError; discriminate|];
         destruct (Nat.ltb_spec (S (length l + length v)) k); [lia|]
       end.
  all: rewrite !at_app_l by (cbn [length]; lia); reflexivity.
Qed.

Lemma Decode_size (s : bytes) :
  s <> [] -> (1 <= snd (DecodeRuneInString s) <= length s)%nat.
Proof.
  intros Hs. destruct s as [|c s]; [done|].
  hdr_cases (at_ (c :: s) 0).
  all: cbn [length]; change (S (length s) <? 1)%nat with false; cbv iota.
  all: repeat case_match; cbn [snd];
    repeat match goal with
           | H : (_ <? _)%nat = false |- _ => apply Nat.ltb_ge in H
           end; try lia.
Qed.

Lemma scanBack_le (s : bytes) (lim steps start r : nat) :
  scanBack s lim steps start = Some r -> (r <= start)%nat.
Proof.
  revert start. induction steps as [|steps IH]; intros start; cbn [scanBack].
  - intros [= ->]. lia.
  - repeat case_match; try (intros [= ->]; lia); try discriminate.
    intros Hr. apply IH in Hr. lia.
Qed.

Lemma DecodeLast_size (s : bytes) :
  s <> [] -> (1 <= snd (DecodeLastRuneInString s) <= length s)%nat.
Proof.
  intros Hs. assert (0 < length s)%nat as Hlen by (destruct s; [done | simpl; lia]).
  unfold DecodeLastRuneInString. cbv zeta.
  destruct (Nat.eqb_spec (length s) 0) as [|_]; [lia|].
  destruct (_ <? RuneSelf); [cbn [snd]; lia|].
  assert (exists start, (start < length s)%nat /\
            match (length s - 1)%nat with
            | O => 0%nat
            | S start' => default 0%nat (scanBack s (length s - UTFMax) UTFMax start')
            end = start) as (start & Hstart & ->).
  { destruct (length s - 1)%nat as [|k] eqn:Ek; [exists 0%nat; split; [lia|done]|].
    destruct (scanBack _ _ _ k) as [r|] eqn:Er; cbn [default].
    - exists r. split; [|done]. apply scanBack_le in Er. lia.
    - exists 0%nat. split; [lia|done]. }
  destruct (DecodeRuneInString (drop start s)) as [r size] eqn:Ed.
  destruct (Nat.eqb_spec (start + size) (length s)) as [E|E]; cbn [negb snd]; [|lia].
  assert (drop start s <> []) as Hd.
  { intros Hnil. apply (f_equal length) in Hnil.
    rewrite length_drop in Hnil. simpl in Hnil. lia. }
  pose proof (Decode_size _ Hd) as Hsz. rewrite Ed in Hsz. cbn [snd] in Hsz. lia.
Qed.

End Utf8Facts.

(** ** Trimming *)
Section TrimFacts.
Import gostrings.

Variable f : N -> bool.

(** With one unit of fuel per byte the left loop runs to its end: the
    result is a suffix that is empty or starts with a rune outside [f]. *)
Lemma trimLeft_spec (fuel : nat) :
  forall s : bytes,
    (length s <= fuel)%nat ->
    trimLeft fuel f s `suffix_of` s /\
    (trimLeft fuel f s = [] \/
     f (fst (utf8.DecodeRuneInString (trimLeft fuel f s))) = false).
Proof.
  induction fuel as [|fuel IH]; intros s Hlen.
  - destruct s; [|simpl in Hlen; lia]. split; [done | now left].
  - destruct s as [|c s]; [split; [done | now left]|].
    cbn [trimLeft].
    destruct (utf8.DecodeRuneInString (c :: s)) as [r size] eqn:Ed.
    destruct (f r) eqn:Ef.
    + pose proof (Decode_size (c :: s) ltac:(done)) as Hsz.
      rewrite Ed in Hsz. cbn [snd] in Hsz.
      destruct (IH (drop size (c :: s))) as [Hsuf Hend].
      { rewrite length_drop. simpl in *. lia. }
      split; [|exact Hend].
      etrans; [exact Hsuf | apply suffix_drop].
    + split; [done|]. right. now rewrite Ed.
Qed.

Lemma trimLeft_fix (fuel : nat) (s : bytes) :
  s = [] \/ f (fst (utf8.DecodeRuneInString s)) = false ->
  trimLeft fuel f s = s.
Proof.
  destruct fuel as [|fuel]; [done|].
  destruct s as [|c s]; [done|].
  intros [|H]; [done|]. cbn [trimLeft].
  destruct (utf8.DecodeRuneInString (c :: s)) as [r size].
  cbn [fst] in H. now rewrite H.
Qed.

Lemma trimRight_spec (fuel : nat) :
  forall s : bytes,
    (length s <= fuel)%nat ->
    trimRight fuel f s `prefix_of` s /\
    (trimRight fuel f s = [] \/
     f (fst (utf8.DecodeLastRuneInString (trimRight fuel f s))) = false).
Proof.
  induction fuel as [|fuel IH]; intros s Hlen.
  - destruct s; [|simpl in Hlen; lia]. split; [done | now left].
  - destruct s as [|c s]; [split; [done | now left]|].
    cbn [trimRight].
    destruct (utf8.DecodeLastRuneInString (c :: s)) as [r size] eqn:Ed.
    destruct (f r) eqn:Ef.
    + pose proof (DecodeLast_size (c :: s) ltac:(done)) as Hsz.
      rewrite Ed in Hsz. cbn [snd] in Hsz.
      destruct (IH (take (length (c :: s) - size) (c :: s))) as [Hpre Hend].
      { rewrite length_take. simpl in *. lia. }
      split; [|exact Hend].
      etrans; [exact Hpre | apply prefix_take].
    + split; [done|]. right. now rewrite Ed.
Qed.

Lemma trimRight_fix (fuel : nat) (s : bytes) :
  s = [] \/ f (fst (utf8.DecodeLastRuneInString s)) = false ->
  trimRight fuel f s = s.
Proof.
  destruct fuel as [|fuel]; [done|].
  destruct s as [|c s]; [done|].
  intros [|H]; [done|]. cbn [trimRight].
  destruct (utf8.DecodeLastRuneInString (c :: s)) as [r size].
  cbn [fst] in H. now rewrite H.
Qed.

End TrimFacts.

Section TrimSpaceFacts.
Import gostrings.

(** The trimmed text is a contiguous part of the input. *)
Lemma TrimSpace_infix (s : bytes) :
  exists a b, s = a ++ TrimSpace s ++ b.
Proof.
  unfold TrimSpace, TrimFunc, TrimRightFunc, TrimLeftFunc.
  destruct (trimLeft_spec unicode.IsSpace (length s) s ltac:(lia)) as [[a Ha] _].
  set (t := trimLeft (length s) unicode.IsSpace s) in *.
  destruct (trimRight_spec unicode.IsSpace (length t) t ltac:(lia)) as [[b Hb] _].
  exists a, b. now rewrite <- Hb.
Qed.

(** It neither starts nor ends with white space. *)
Lemma TrimSpace_ends (s : bytes) :
  TrimSpace s = [] \/
  (unicode.IsSpace (fst (utf8.DecodeRuneInString (TrimSpace s))) = false /\
   unicode.IsSpace (fst (utf8.DecodeLastRuneInString (TrimSpace s))) = false).
Proof.
  unfold TrimSpace, TrimFunc, TrimRightFunc, TrimLeftFunc.
  destruct (trimLeft_spec unicode.IsSpace (length s) s ltac:(lia)) as [_ Hl].
  set (t := trimLeft (length s) unicode.IsSpace s) in *.
  destruct (trimRight_spec unicode.IsSpace (length t) t ltac:(lia)) as [[b Hb] Hr].
  set (u := trimRight (length t) unicode.IsSpace t) in *.
  destruct Hr as [Hr|Hr]; [now left|].
  destruct u as [|c w] eqn:Eu; [now left|]. right. split; [|exact Hr].
  destruct (unicode.IsSpace (fst (utf8.DecodeRuneInString (c :: w)))) eqn:E;
    [|reflexivity].
  pose proof (Decode_app (c :: w) b E) as Happ. rewrite <- Hb in Happ.
  destruct Hl as [Hl|Hl]; [rewrite Hl in Hb; discriminate|].
  rewrite Happ in Hl. congruence.
Qed.

(** Text that neither starts nor ends with white space is left as it
    is. *)
Lemma TrimSpace_fix (s : bytes) :
  s = [] \/
  (unicode.IsSpace (fst (utf8.DecodeRuneInString s)) = false /\
   unicode.IsSpace (fst (utf8.DecodeLastRuneInString s)) = false) ->
  TrimSpace s = s.
Proof.
  intros H. unfold TrimSpace, TrimFunc, TrimRightFunc, TrimLeftFunc.
  rewrite (trimLeft_fix _ _ s) by (destruct H as [|[? _]]; auto).
  apply trimRight_fix. destruct H as [|[_ ?]]; auto.
Qed.

Lemma TrimSpace_idem (s : bytes) : TrimSpace (TrimSpace s) = TrimSpace s.
Proof. apply TrimSpace_fix, TrimSpace_ends. Qed.

End TrimSpaceFacts.

(** ** [cleanResponse] *)

Lemma cleanResponse_eq (input : string) :
  cleanResponse input =
  stringOf (gostrings.TrimSpace (stripTicks (dropJsonFence (bytesOf input)))).
Proof.
  unfold cleanResponse, TrimSpace.
  now rewrite ReplaceAllString_fence, bytesOf_stringOf.
Qed.

Lemma hasFence_cleanResponse (input : string) :
  hasFence (bytesOf (cleanResponse input)) = false.
Proof.
  rewrite cleanResponse_eq, bytesOf_stringOf.
  set (w := stripTicks (dropJsonFence (bytesOf input))).
  pose proof (hasFence_stripTicks (dropJsonFence (bytesOf input))) as Hw.
  fold w in Hw.
  destruct (TrimSpace_infix w) as (a & b & E). rewrite E in Hw.
  apply hasFence_app in Hw as [_ Hw]. now apply hasFence_app in Hw as [Hw _].
Qed.

Lemma cleanResponse_idem (s : string) :
  cleanResponse (cleanResponse s) = cleanResponse s.
Proof.
  pose proof (hasFence_cleanResponse s) as Hf.
  rewrite (cleanResponse_eq (cleanResponse s)).
  rewrite dropJsonFence_id by now apply hasFence_head.
  rewrite stripTicks_id by exact Hf.
  rewrite cleanResponse_eq, bytesOf_stringOf.
  now rewrite TrimSpace_idem.
Qed.

(** * The JSON reader

    The recursive functions of the reader take fuel.  What [read],
    [unquote] and [foldName] pass is enough: more changes nothing. *)
Section JsonFacts.
Import json.

Lemma skipSpace_length (s : bytes) : (length (skipSpace s) <= length s)%nat.
Proof. induction s as [|c s IH]; cbn; [lia|]. destruct (isSpace c); cbn; lia. Qed.

Lemma skipSpace_cons (s : bytes) (c : ascii) (rest : bytes) :
  skipSpace s = c :: rest -> (length rest < length s)%nat.
Proof. intros H. pose proof (skipSpace_length s) as Hl. rewrite H in Hl. cbn in Hl. lia. Qed.

Lemma scanString_length (s body rest : bytes) :
  scanString s = Some (body, rest) -> (length rest < length s)%nat.
Proof.
  remember (length s) as n eqn:Hn. revert s body rest Hn.
  induction n as [n IH] using lt_wf_ind. intros s body rest -> H.
  destruct s as [|c s]; [discriminate|]. cbn [scanString] in H.
  destruct (c =? dquote)%char; [injection H as <- <-; cbn; lia|].
  destruct (c =? "\")%char.
  - destruct s as [|d s]; [discriminate|].
    destruct (scanString s) as [[b r]|] eqn:E; [|discriminate].
    injection H as <- <-.
    specialize (IH (length s) ltac:(cbn; lia) s b r eq_refl E). cbn. lia.
  - destruct (scanString s) as [[b r]|] eqn:E; [|discriminate].
    injection H as <- <-.
    specialize (IH (length s) ltac:(cbn; lia) s b r eq_refl E). cbn. lia.
Qed.

Lemma readString_length (s str rest : bytes) :
  readString s = Some (str, rest) -> (length rest < length s)%nat.
Proof.
  unfold readString. destruct (scanString s) as [[b r]|] eqn:E; [|discriminate].
  destruct (unquote b); [|discriminate]. intros [= <- <-].
  eapply scanString_length, E.
Qed.

Lemma scanNumber_length (s : bytes) : (length (snd (scanNumber s)) <= length s)%nat.
Proof.
  induction s as [|c s IH]; cbn; [lia|].
  destruct (isNumberByte c); [|cbn; lia].
  destruct (scanNumber s). cbn in *. lia.
Qed.

Lemma read_length (fuel : nat) :
  (forall s v rest, readValue fuel s = Some (v, rest) -> (length rest <= length s)%nat) /\
  (forall s ms rest, readObject fuel s = Some (ms, rest) -> (length rest < length s)%nat) /\
  (forall s vs rest, readArray fuel s = Some (vs, rest) -> (length rest < length s)%nat).
Proof.
  induction fuel as [|fuel (IHv & IHo & IHa)]; [repeat split; discriminate|].
  repeat split.
  - intros s v rest. cbn [readValue].
    destruct (skipSpace s) as [|c r] eqn:Es; [discriminate|].
    apply skipSpace_cons in Es.
    repeat case_match; intros; simplify_eq;
      repeat match goal with
             | H : readObject _ _ = Some _ |- _ => apply IHo in H
             | H : readArray _ _ = Some _ |- _ => apply IHa in H
             | H : readString _ = Some _ |- _ => apply readString_length in H
             | H : scanNumber ?x = _ |- _ =>
                 let Hn := fresh in
                 pose proof (scanNumber_length x) as Hn; rewrite H in Hn; clear H
             end; cbn [length snd] in *; rewrite ?length_drop; try lia.
  - intros s v rest. cbn [readObject].
    destruct (skipSpace s) as [|c r] eqn:Es; [discriminate|].
    apply skipSpace_cons in Es.
    repeat case_match; intros; simplify_eq;
      repeat match goal with
             | H : readObject _ _ = Some _ |- _ => apply IHo in H
             | H : readValue _ _ = Some _ |- _ => apply IHv in H
             | H : readString _ = Some _ |- _ => apply readString_length in H
             | H : skipSpace _ = _ :: _ |- _ => apply skipSpace_cons in H
             end; cbn [length snd] in *; try lia.
  - intros s v rest. cbn [readArray].
    destruct (skipSpace s) as [|c r] eqn:Es; [discriminate|].
    apply skipSpace_cons in Es.
    repeat case_match; intros; simplify_eq;
      repeat match goal with
             | H : readArray _ _ = Some _ |- _ => apply IHa in H
             | H : readValue _ _ = Some _ |- _ => apply IHv in H
             | H : skipSpace _ = _ :: _ |- _ => apply skipSpace_cons in H
             end; cbn [length snd] in *; try lia.
Qed.

Lemma read_fuel (fuel : nat) :
  forall fuel',
  (forall s, (2 * length s < fuel)%nat -> (2 * length s < fuel')%nat ->
             readValue fuel s = readValue fuel' s) /\
  (forall s, (2 * length s + 1 < fuel)%nat -> (2 * length s + 1 < fuel')%nat ->
             readObject fuel s = readObject fuel' s) /\
  (forall s, (2 * length s + 1 < fuel)%nat -> (2 * length s + 1 < fuel')%nat ->
             readArray fuel s = readArray fuel' s).
Proof.
  induction fuel as [|fuel IH]; intros fuel'; [repeat split; intros; lia|].
  destruct fuel' as [|fuel']; [repeat split; intros; lia|].
  destruct (IH fuel') as (IHv & IHo & IHa). clear IH.
  destruct (read_length fuel') as (Lv & _ & _).
  repeat split; intros s Hf Hf'.
  - cbn [readValue].
    destruct (skipSpace s) as [|c r] eqn:Es; [reflexivity|].
    apply skipSpace_cons in Es.
    rewrite (IHo r), (IHa r) by lia. reflexivity.
  - cbn [readObject].
    destruct (skipSpace s) as [|c r] eqn:Es; [reflexivity|].
    apply skipSpace_cons in Es.
    destruct (c =? "}")%char; [reflexivity|].
    destruct (c =? dquote)%char; [|reflexivity].
    destruct (readString r) as [[key r1]|] eqn:Ek; [|reflexivity].
    apply readString_length in Ek.
    destruct (skipSpace r1) as [|colon r2] eqn:E1; [reflexivity|].
    apply skipSpace_cons in E1.
    destruct (colon =? ":")%char; [|reflexivity].
    rewrite (IHv r2) by lia.
    destruct (readValue fuel' r2) as [[v r3]|] eqn:Ev; [|reflexivity].
    apply Lv in Ev.
    destruct (skipSpace r3) as [|d r4] eqn:E3; [reflexivity|].
    apply skipSpace_cons in E3.
    rewrite (IHo r4) by lia. reflexivity.
  - cbn [readArray].
    destruct (skipSpace s) as [|c r] eqn:Es; [reflexivity|].
    pose proof (skipSpace_length s) as Hs. rewrite Es in Hs.
    destruct (c =? "]")%char; [reflexivity|].
    rewrite (IHv (c :: r)) by lia.
    destruct (readValue fuel' (c :: r)) as [[v r1]|] eqn:Ev; [|reflexivity].
    apply Lv in Ev.
    destruct (skipSpace r1) as [|d r2] eqn:E1; [reflexivity|].
    apply skipSpace_cons in E1.
    rewrite (IHa r2) by lia. reflexivity.
Qed.

(** More fuel than [read] provides changes nothing. *)
Lemma read_enough_fuel (data : bytes) (fuel : nat) :
  (2 * length data + 2 <= fuel)%nat ->
  readValue fuel data = readValue (2 * length data + 2) data.
Proof. intros H. apply read_fuel; lia. Qed.

Lemma unquoteLoop_fuel (fuel : nat) :
  forall fuel' s, (length s < fuel)%nat -> (length s < fuel')%nat ->
                  unquoteLoop fuel s = unquoteLoop fuel' s.
Proof.
  induction fuel as [|fuel IH]; intros fuel' s Hf Hf'; [lia|].
  destruct fuel' as [|fuel']; [lia|].
  cbn [unquoteLoop]. destruct s as [|c s]; [reflexivity|].
  cbn [length] in *.
  destruct (c =? "\")%char.
  - destruct s as [|d s]; [reflexivity|]. cbn [length] in *.
    rewrite (IH fuel' s) by lia.
    rewrite (IH fuel' (drop 6 (c :: d :: s))) by (rewrite length_drop; cbn; lia).
    rewrite (IH fuel' (drop 6 (drop 6 (c :: d :: s))))
      by (rewrite !length_drop; cbn; lia).
    reflexivity.
  - rewrite (IH fuel' s) by lia.
    destruct (utf8.DecodeRuneInString (c :: s)) as [rr size] eqn:Ed.
    pose proof (Decode_size (c :: s) ltac:(done)) as Hsz. rewrite Ed in Hsz.
    cbn [snd length] in Hsz.
    rewrite (IH fuel' (drop size (c :: s))) by (rewrite length_drop; cbn; lia).
    reflexivity.
Qed.

Lemma foldLoop_fuel (fuel : nat) :
  forall fuel' s, (length s <= fuel)%nat -> (length s <= fuel')%nat ->
                  foldLoop fuel s = foldLoop fuel' s.
Proof.
  induction fuel as [|fuel IH]; intros fuel' s Hf Hf'.
  - destruct s; [|cbn in Hf; lia]. now destruct fuel'.
  - destruct s as [|c s]; [now destruct fuel'|].
    destruct fuel' as [|fuel']; [cbn in Hf'; lia|].
    cbn [foldLoop]. cbn [length] in *.
    rewrite (IH fuel' s) by lia.
    destruct (utf8.DecodeRuneInString (c :: s)) as [rr size] eqn:Ed.
    pose proof (Decode_size (c :: s) ltac:(done)) as Hsz. rewrite Ed in Hsz.
    cbn [snd length] in Hsz.
    rewrite (IH fuel' (drop size (c :: s))) by (rewrite length_drop; cbn; lia).
    reflexivity.
Qed.

Lemma unquote_enough_fuel (body : bytes) (fuel : nat) :
  (length body < fuel)%nat -> unquoteLoop fuel body = unquote body.
Proof. intros H. apply unquoteLoop_fuel; [exact H | lia]. Qed.

Lemma foldName_enough_fuel (s : bytes) (fuel : nat) :
  (length s <= fuel)%nat -> foldLoop fuel s = foldName s.
Proof. intros H. apply foldLoop_fuel; [exact H | lia]. Qed.

End JsonFacts.

(** * Runs of the library models *)

Example DecodeRune_two_bytes :
  utf8.DecodeRuneInString ["195"; "169"; "a"]%char = (0xE9, 2%nat).
Proof. reflexivity. Qed.

Example DecodeRune_truncated :
  utf8.DecodeRuneInString ["226"; "128"]%char = (utf8.RuneError, 1%nat).
Proof. reflexivity. Qed.

Example DecodeLastRune_line_separator :
  utf8.DecodeLastRuneInString ["a"; "226"; "128"; "168"]%char = (0x2028, 3%nat).
Proof. reflexivity. Qed.

Example DecodeLastRune_stray_continuation :
  utf8.DecodeLastRuneInString ["a"; "128"; "168"]%char = (utf8.RuneError, 1%nat).
Proof. reflexivity. Qed.

(** White space beyond ASCII is trimmed as well: a no-break space in
    front, an ideographic space and a newline behind. *)
Example TrimSpace_unicode :
  gostrings.TrimSpace (["194"; "160"; " "]%char ++ bytesOf "a  b"
                       ++ ["227"; "128"; "128"; "010"]%char)
  = bytesOf "a  b".
Proof. vm_compute. reflexivity. Qed.

Example Valid_accepts :
  Forall (fun s => json.Valid (bytesOf (dq s)) = true)
    ["{}"; " [1, -2.5e+3, true, false, null, 'a\u00e9\n'] "; "0"; "'x'";
     "{'a':{'b':[]}}"].
Proof. repeat constructor. Qed.

Example Valid_rejects :
  Forall (fun s => json.Valid (bytesOf (dq s)) = false)
    [""; "not json"; "01"; "{'a':1,}"; "[1 2]"; "{'a'}"; "'open"; "{} {}";
     "'bad \x escape'"; "tru"; "-"; "1."].
Proof. repeat constructor. Qed.

Example ReplaceAllString_leading_tag_only :
  regexp.ReplaceAllString fenceRe " ```json x ```json" "" = " json x json".
Proof. vm_compute. reflexivity. Qed.

(** * The package *)

Lemma supportsSystemPrompt_spec (provider : string) :
  index supportsSystemPrompt provider = true <->
  provider = "openai" \/ provider = "anthropic" \/ provider = "ollama"
  \/ provider = "cohere".
Proof.
  unfold index, supportsSystemPrompt.
  rewrite !lookup_insert, lookup_empty.
  repeat case_decide; cbn; split; intros HH; auto; try discriminate.
  destruct HH as [|[|[|]]]; congruence.
Qed.

Section PackageFacts.
Context `{Ext : Externals} `{Init : !Initialisers}.

(** C1.  When the request can be dumped, [CreateMessageContent] returns
    no error and, for a provider with the system-prompt capability,
    exactly two messages: a System message with the system prompt, then
    a Human message with the user prompt, which is the user template
    formatted with the trimmed dump.  For any other provider it returns
    exactly one Human message whose text is the system prompt, a
    newline and the user prompt. *)
Theorem C1_CreateMessageContent_messages
    (r : http_Request) (cfg : config.Config) (provider : string) (httpReq : bytes) :
  DumpRequest r true = (httpReq, None) ->
  let systemPrompt := config.SystemPrompt cfg in
  let userPrompt := Sprintf (config.UserPrompt cfg) (TrimSpace (stringOf httpReq)) in
  snd (CreateMessageContent r cfg provider) = None /\
  (index supportsSystemPrompt provider = true ->
   exists m1 m2,
     fst (CreateMessageContent r cfg provider) = [m1; m2] /\
     llms.Role m1 = llms.ChatMessageTypeSystem /\
     llms.Parts m1 = [llms.TextContent systemPrompt] /\
     llms.Role m2 = llms.ChatMessageTypeHuman /\
     llms.Parts m2 = [llms.TextContent userPrompt]) /\
  (index supportsSystemPrompt provider = false ->
   exists m,
     fst (CreateMessageContent r cfg provider) = [m] /\
     llms.Role m = llms.ChatMessageTypeHuman /\
     llms.Parts m =
       [llms.TextContent (systemPrompt +:+ String "010" "" +:+ userPrompt)]).
Proof.
  intros Hdump systemPrompt userPrompt.
  unfold CreateMessageContent. rewrite Hdump.
  fold systemPrompt userPrompt.
  destruct (index supportsSystemPrompt provider); cbn.
  - split; [reflexivity|]. split; [|discriminate].
    intros _. now eexists _, _.
  - split; [reflexivity|]. split; [discriminate|].
    intros _. now eexists.
Qed.

(** C6.  For a provider outside openai, googleai, gcp-vertex,
    anthropic, cohere and ollama, [New] returns no client and the error
    unsupported llm provider, whatever the initialisers would do. *)
Theorem C6_New_unsupported (ctx : context_Context) (config : Config) :
  Provider config ∉
    ["openai"; "googleai"; "gcp-vertex"; "anthropic"; "cohere"; "ollama"] ->
  New ctx config = (None, Some "unsupported llm provider").
Proof.
  intros Hnot. unfold New. cbv zeta.
  repeat match goal with
         | |- context [String.eqb (Provider config) ?p] =>
             destruct (String.eqb_spec (Provider config) p) as [E|_];
             [exfalso; apply Hnot; rewrite E; set_solver|]
         end.
  reflexivity.
Qed.

(** C7.  [GenerateLLMResponse] looks at the first choice only, and each
    of the three empty answers of the model, a nil response, a response
    without choices and a first choice with empty content, gives an
    error of kind emptyLLMResponse with a message of its own. *)
Theorem C7_empty_responses (ctx : context_Context) (model : llms.Model)
    (temperature : float64) (messages : list llms.MessageContent) :
  let nilResponse := "emptyLLMResponse: response is nil" in
  let noChoices := "emptyLLMResponse: no choices available" in
  let emptyContent := "emptyLLMResponse: content of first choice is empty" in
  (theCall ctx model temperature messages = (None, None) ->
   GenerateLLMResponse ctx model temperature messages = ("", Some nilResponse)) /\
  (theCall ctx model temperature messages = (Some (choices []), None) ->
   GenerateLLMResponse ctx model temperature messages = ("", Some noChoices)) /\
  (forall choice0 rest,
     theCall ctx model temperature messages
       = (Some {| llms.Choices := choice0 :: rest |}, None) ->
     llms.Content choice0 = "" ->
     GenerateLLMResponse ctx model temperature messages = ("", Some emptyContent)) /\
  (forall choice0 rest,
     theCall ctx model temperature messages
       = (Some {| llms.Choices := choice0 :: rest |}, None) ->
     GenerateLLMResponse ctx model temperature messages =
     GenerateLLMResponse ctx
       (constModel (Some {| llms.Choices := [choice0] |}) None)
       temperature messages) /\
  errorKind nilResponse = "emptyLLMResponse" /\
  errorKind noChoices = "emptyLLMResponse" /\
  errorKind emptyContent = "emptyLLMResponse" /\
  nilResponse <> noChoices /\ nilResponse <> emptyContent /\
  noChoices <> emptyContent.
Proof.
  unfold theCall, GenerateLLMResponse. cbv zeta.
  repeat split; try reflexivity; try discriminate.
  - now intros ->.
  - now intros ->.
  - intros choice0 rest -> Hc. cbn. now rewrite Hc.
  - now intros choice0 rest ->.
Qed.

(** C8.  The answer [{"headers":{}}] fails: [GenerateLLMResponse]
    returns that same text and the error invalidJSONResponse: with the
    validation error of the body.  It does so for every answer: when
    [ValidateJSON] rejects the cleaned content of the first choice, the
    cleaned text is returned together with the error invalidJSONResponse:
    followed by the error of [ValidateJSON]; and an error of kind
    invalidJSONResponse arises in no other way. *)
Theorem C8_invalid_text_returned (ctx : context_Context) (model : llms.Model)
    (temperature : float64) (messages : list llms.MessageContent) :
  GenerateLLMResponse ctx
    (constModel (Some (choices [dq "{'headers':{}}"])) None) temperature messages
  = (dq "{'headers':{}}",
     Some ("invalidJSONResponse: validation error: "
           +:+ validator.fieldErrMsg "JSONResponse.Body" "Body" "required")) /\
  (forall choice0 rest err,
     theCall ctx model temperature messages
       = (Some {| llms.Choices := choice0 :: rest |}, None) ->
     llms.Content choice0 <> "" ->
     ValidateJSON (cleanResponse (llms.Content choice0)) = Some err ->
     GenerateLLMResponse ctx model temperature messages
     = (cleanResponse (llms.Content choice0),
        Some ("invalidJSONResponse: " +:+ err))) /\
  (forall resp e,
     GenerateLLMResponse ctx model temperature messages = (resp, Some e) ->
     errorKind e = "invalidJSONResponse" ->
     exists choice0 rest err,
       theCall ctx model temperature messages
         = (Some {| llms.Choices := choice0 :: rest |}, None) /\
       resp = cleanResponse (llms.Content choice0) /\
       ValidateJSON resp = Some err /\
       e = "invalidJSONResponse: " +:+ err).
Proof.
  split; [vm_compute; reflexivity|]. split.
  - intros choice0 rest err Hcall Hne Hv. unfold theCall in Hcall.
    unfold GenerateLLMResponse. rewrite Hcall. cbn [llms.Choices].
    destruct (String.eqb_spec (llms.Content choice0) "") as [Hz|_];
      [contradiction|].
    now rewrite Hv.
  - intros resp e Hgen Hkind.
    revert Hgen. unfold theCall, GenerateLLMResponse.
    destruct (llms.GenerateContent model ctx messages _) as [response err].
    destruct err as [err|].
    { intros [= <- <-]. simpl in Hkind. discriminate. }
    destruct response as [[cs]|]; [|intros [= <- <-]; discriminate].
    destruct cs as [|choice0 rest]; [intros [= <- <-]; discriminate|].
    cbn [llms.Choices].
    destruct (String.eqb (llms.Content choice0) ""); [intros [= <- <-]; discriminate|].
    destruct (ValidateJSON (cleanResponse (llms.Content choice0))) as [err|] eqn:Ev;
      [|discriminate].
    intros [= <- <-]. now exists choice0, rest, err.
Qed.

(** C3, as the code has it.  When the cleaned content of the first
    choice is not valid JSON, [GenerateLLMResponse] returns the cleaned
    text and the error invalidJSONResponse: input is not valid JSON.
    Its kind is invalidJSONResponse, the kind of every failure of
    [ValidateJSON]; what tells it from a failed field validation is the
    rest of the message. *)
Theorem C3_malformed_is_invalidJSONResponse (ctx : context_Context)
    (model : llms.Model) (temperature : float64)
    (messages : list llms.MessageContent)
    (choice0 : llms.ContentChoice) (rest : list llms.ContentChoice) :
  theCall ctx model temperature messages
    = (Some {| llms.Choices := choice0 :: rest |}, None) ->
  llms.Content choice0 <> "" ->
  json.Valid (bytesOf (cleanResponse (llms.Content choice0))) = false ->
  GenerateLLMResponse ctx model temperature messages
    = (cleanResponse (llms.Content choice0),
       Some "invalidJSONResponse: input is not valid JSON") /\
  errorKind "invalidJSONResponse: input is not valid JSON" = "invalidJSONResponse" /\
  forall err : error,
    "invalidJSONResponse: input is not valid JSON"
    <> "invalidJSONResponse: " +:+ ("validation error: " +:+ err).
Proof.
  intros Hcall Hne Hinvalid. split; [|split; [reflexivity | discriminate]].
  unfold theCall in Hcall. unfold GenerateLLMResponse. rewrite Hcall.
  cbn [llms.Choices].
  destruct (String.eqb_spec (llms.Content choice0) "") as [|_]; [done|].
  unfold ValidateJSON. cbv zeta. now rewrite Hinvalid.
Qed.

End PackageFacts.

(** ** [ValidateJSON] on a text that the scanner accepts *)

Lemma ValidateJSON_read (jsonStr : string) (v : json.Value) :
  json.Valid (bytesOf jsonStr) = true ->
  json.read (bytesOf jsonStr) = Some v ->
  ValidateJSON jsonStr =
  match json.store v zeroResponse with
  | (_, Some err) => Some ("error unmarshalling JSON: " +:+ err)
  | (resp, None) =>
      match validator.Struct resp with
      | Some err => Some ("validation error: " +:+ err)
      | None => None
      end
  end.
Proof.
  intros Hvalid Hread. unfold ValidateJSON, json.Unmarshal. cbv zeta.
  unfold json.Valid in Hvalid. unfold json.Valid. rewrite Hvalid. cbn [negb].
  rewrite Hread. fold zeroResponse.
  now destruct (json.store v zeroResponse) as [resp [err|]].
Qed.

(** String members stored into a map leave no error behind. *)
Lemma storeMembers_strings (ms : list (bytes * json.Value)) :
  Forall (fun kv => exists s, snd kv = json.Str s) ms ->
  forall m, snd (json.storeMembers ms m None) = None.
Proof.
  induction 1 as [|[key v] ms [s Hs] _ IH]; intros m; [reflexivity|].
  cbn in Hs. subst v. cbn. apply IH.
Qed.

Lemma stringOf_nil_inv (b : bytes) : stringOf b = "" -> b = [].
Proof. now destruct b. Qed.

(** C4, as the code has it.  A text that spells the object with members
    headers, an object of strings, and body, the empty string, is
    rejected by [ValidateJSON]: the required tag of [Body] refuses the
    empty string.  The error is a validation error for the field Body. *)
Theorem C4_empty_body_rejected (jsonStr : string) (hs : list (bytes * json.Value)) :
  json.Valid (bytesOf jsonStr) = true ->
  json.read (bytesOf jsonStr)
    = Some (json.Object [(bytesOf "headers", json.Object hs);
                         (bytesOf "body", json.Str [])]) ->
  Forall (fun kv => exists s, snd kv = json.Str s) hs ->
  ValidateJSON jsonStr
    = Some ("validation error: "
            +:+ validator.fieldErrMsg "JSONResponse.Body" "Body" "required").
Proof.
  intros Hvalid Hread Hhs.
  rewrite (ValidateJSON_read _ _ Hvalid Hread).
  cbn [json.store json.storeFields].
  change (json.lookupField (bytesOf "headers")) with (Some json.fHeaders).
  change (json.lookupField (bytesOf "body")) with (Some json.fBody).
  cbn [json.storeMap zeroResponse Headers Body default].
  pose proof (storeMembers_strings hs Hhs ∅) as Hsaved.
  destruct (json.storeMembers hs ∅ None) as [m saved]. cbn in Hsaved. subst saved.
  cbn [json.storeString Headers Body].
  vm_compute. reflexivity.
Qed.

(** C5, as the code has it.  A text that spells the object with members
    headers, the empty object, and body, a string, passes [ValidateJSON]
    when the body is not empty: the required tag of [Headers] refuses the
    nil map only, and an empty object makes an empty map.  With an empty
    body the text is rejected, because of the body. *)
Theorem C5_empty_headers_accepted (jsonStr : string) (body : bytes) :
  json.Valid (bytesOf jsonStr) = true ->
  json.read (bytesOf jsonStr)
    = Some (json.Object [(bytesOf "headers", json.Object []);
                         (bytesOf "body", json.Str body)]) ->
  (body <> [] -> ValidateJSON jsonStr = None) /\
  (body = [] ->
   ValidateJSON jsonStr
     = Some ("validation error: "
             +:+ validator.fieldErrMsg "JSONResponse.Body" "Body" "required")).
Proof.
  intros Hvalid Hread.
  rewrite (ValidateJSON_read _ _ Hvalid Hread).
  cbn [json.store json.storeFields].
  change (json.lookupField (bytesOf "headers")) with (Some json.fHeaders).
  change (json.lookupField (bytesOf "body")) with (Some json.fBody).
  cbn [json.storeMap json.storeMembers json.storeString zeroResponse Headers Body default].
  split.
  - intros Hbody. unfold validator.Struct. cbn [Headers Body validator.hasValue_map].
    unfold validator.hasValue_string.
    destruct (String.eqb_spec (stringOf body) "") as [E|_]; [|reflexivity].
    now apply stringOf_nil_inv in E.
  - intros ->. vm_compute. reflexivity.
Qed.

(** * The cleaning step *)

(** C2, as the code has it.  [cleanResponse] removes a leading fence
    marker tagged json, then every triple backtick wherever it stands,
    from left to right and not overlapping, and then the white space
    around the text; every other byte is kept, in one pass. *)
Theorem C2_cleanResponse_removes_every_fence (input : string) :
  cleanResponse input =
  TrimSpace (stringOf (stripTicks (dropJsonFence (bytesOf input)))).
Proof. unfold TrimSpace. rewrite bytesOf_stringOf. apply cleanResponse_eq. Qed.

(** C9.  For the fenced answer, cleaning yields the JSON object inside
    the fence, and [ValidateJSON] accepts it; decoding gives headers a: b
    and body x. *)
Theorem C9_fenced_answer :
  cleanResponse fencedAnswer = dq "{'headers':{'a':'b'},'body':'x'}" /\
  ValidateJSON (cleanResponse fencedAnswer) = None /\
  json.Unmarshal (bytesOf (cleanResponse fencedAnswer)) zeroResponse
    = ({| Headers := Some {[ "a" := "b" ]}; Body := "x" |}, None).
Proof. vm_compute. auto. Qed.

(** C10.  Cleaning is idempotent. *)
Theorem C10_cleanResponse_idempotent (s : string) :
  cleanResponse (cleanResponse s) = cleanResponse s.
Proof. apply cleanResponse_idem. Qed.

(** * Concrete runs *)

Lemma C1_witness :
  fst (@CreateMessageContent testExternals "GET / HTTP/1.1 "
         {| config.SystemPrompt := "sys"; config.UserPrompt := "req: " |} "openai")
  = [llms.TextParts llms.ChatMessageTypeSystem ["sys"];
     llms.TextParts llms.ChatMessageTypeHuman ["req: GET / HTTP/1.1"]] /\
  fst (@CreateMessageContent testExternals "GET / HTTP/1.1 "
         {| config.SystemPrompt := "sys"; config.UserPrompt := "req: " |} "googleai")
  = [llms.TextParts llms.ChatMessageTypeHuman
       ["sys" +:+ String "010" "" +:+ "req: GET / HTTP/1.1"]].
Proof.
  pose proof (@C1_CreateMessageContent_messages testExternals "GET / HTTP/1.1 "
                {| config.SystemPrompt := "sys"; config.UserPrompt := "req: " |}
                "openai" (bytesOf "GET / HTTP/1.1 ") eq_refl) as (_ & H1 & _).
  pose proof (@C1_CreateMessageContent_messages testExternals "GET / HTTP/1.1 "
                {| config.SystemPrompt := "sys"; config.UserPrompt := "req: " |}
                "googleai" (bytesOf "GET / HTTP/1.1 ") eq_refl) as (_ & _ & H2).
  destruct (H1 eq_refl) as (m1 & m2 & -> & R1 & P1 & R2 & P2).
  destruct (H2 eq_refl) as (m & -> & R & P).
  destruct m1, m2, m. cbn in *. subst. vm_compute. auto.
Defined.

Lemma C6_witness :
  @New testExternals testInitialisers tt (testConfig "mistral")
  = (None, Some "unsupported llm provider").
Proof.
  apply (@C6_New_unsupported testExternals testInitialisers tt (testConfig "mistral")).
  vm_compute. intros H. repeat (inversion H as [|? ? ? H']; clear H; rename H' into H).
Defined.

Lemma C7_witness :
  @GenerateLLMResponse testExternals tt (constModel None None) tt []
    = ("", Some "emptyLLMResponse: response is nil") /\
  @GenerateLLMResponse testExternals tt (constModel (Some (choices [])) None) tt []
    = ("", Some "emptyLLMResponse: no choices available") /\
  @GenerateLLMResponse testExternals tt
     (constModel (Some (choices [""; dq "{'headers':{'a':'b'},'body':'x'}"])) None) tt []
    = ("", Some "emptyLLMResponse: content of first choice is empty").
Proof.
  split; [|split].
  - apply (@C7_empty_responses testExternals tt (constModel None None) tt []).
    reflexivity.
  - apply (@C7_empty_responses testExternals tt
             (constModel (Some (choices [])) None) tt []).
    reflexivity.
  - eapply (@C7_empty_responses testExternals tt
              (constModel
                 (Some (choices [""; dq "{'headers':{'a':'b'},'body':'x'}"])) None)
              tt []); reflexivity.
Defined.

Lemma C8_witness :
  @GenerateLLMResponse testExternals tt
    (constModel (Some (choices [dq "{'headers':{}}"])) None) tt []
  = (dq "{'headers':{}}",
     Some ("invalidJSONResponse: validation error: "
           +:+ validator.fieldErrMsg "JSONResponse.Body" "Body" "required")) /\
  @GenerateLLMResponse testExternals tt
    (constModel (Some (choices [" " +:+ dq "{'headers':null}"; "other"])) None) tt []
  = (cleanResponse (" " +:+ dq "{'headers':null}"),
     Some ("invalidJSONResponse: "
           +:+ "validation error: "
           +:+ validator.fieldErrMsg "JSONResponse.Headers" "Headers" "required"
           +:+ String "010" ""
           +:+ validator.fieldErrMsg "JSONResponse.Body" "Body" "required")) /\
  cleanResponse (" " +:+ dq "{'headers':null}") = dq "{'headers':null}".
Proof.
  pose proof (@C8_invalid_text_returned testExternals tt
                (constModel (Some (choices [" " +:+ dq "{'headers':null}"; "other"]))
                   None) tt []) as [Hrun [Hfwd _]].
  split; [exact Hrun|]. split; [|vm_compute; reflexivity].
  apply (Hfwd {| llms.Content := " " +:+ dq "{'headers':null}";
                 llms.StopReason := "" |}
              [{| llms.Content := "other"; llms.StopReason := "" |}]).
  - reflexivity.
  - discriminate.
  - vm_compute. reflexivity.
Defined.

Lemma C3_witness :
  @GenerateLLMResponse testExternals tt
    (constModel (Some (choices ["not json"])) None) tt []
  = ("not json", Some "invalidJSONResponse: input is not valid JSON").
Proof.
  apply (@C3_malformed_is_invalidJSONResponse testExternals tt
           (constModel (Some (choices ["not json"])) None) tt []
           {| llms.Content := "not json"; llms.StopReason := "" |} []).
  - reflexivity.
  - discriminate.
  - vm_compute. reflexivity.
Defined.

Lemma C4_witness :
  ValidateJSON (dq "{'headers':{'a':'b'},'body':''}")
  = Some ("validation error: "
          +:+ validator.fieldErrMsg "JSONResponse.Body" "Body" "required").
Proof.
  apply (C4_empty_body_rejected (dq "{'headers':{'a':'b'},'body':''}")
           [(bytesOf "a", json.Str (bytesOf "b"))]).
  - vm_compute. reflexivity.
  - vm_compute. reflexivity.
  - repeat constructor. now eexists.
Defined.

Lemma C5_witness : ValidateJSON (dq "{ 'headers' : {}, 'body' : 'x' }") = None.
Proof.
  apply (C5_empty_headers_accepted (dq "{ 'headers' : {}, 'body' : 'x' }") (bytesOf "x")).
  - vm_compute. reflexivity.
  - vm_compute. reflexivity.
  - discriminate.
Defined.

(** * Inputs on which the code departs from its description *)

(** C2.  A triple backtick inside the text is removed, although it is
    neither a leading nor a trailing fence marker. *)
Lemma C2_counterexample :
  cleanResponse "a```b" = "ab" /\
  cleanResponse_single_pair "a```b" = "a```b" /\
  cleanResponse "a```b" <> cleanResponse_single_pair "a```b".
Proof. vm_compute. repeat split; discriminate. Qed.

(** C3.  The text not json is not valid JSON, and the error for it has
    the kind invalidJSONResponse, the very kind of the error for the
    valid but incomplete [{"headers":{}}]. *)
Lemma C3_counterexample :
  let run content :=
    @GenerateLLMResponse testExternals tt
      (constModel (Some (choices [content])) None) tt [] in
  json.Valid (bytesOf (cleanResponse "not json")) = false /\
  json.Valid (bytesOf (cleanResponse (dq "{'headers':{}}"))) = true /\
  snd (run "not json") = Some "invalidJSONResponse: input is not valid JSON" /\
  errorKind <$> snd (run "not json") = Some "invalidJSONResponse" /\
  errorKind <$> snd (run (dq "{'headers':{}}")) = Some "invalidJSONResponse".
Proof. vm_compute. repeat split. Qed.

(** C4.  A document with a non-empty headers object and the body bound
    to the empty string does not pass validation. *)
Lemma C4_counterexample :
  ValidateJSON (dq "{'headers':{'a':'b'},'body':''}") <> None.
Proof. vm_compute. discriminate. Qed.

(** C5.  A document whose headers field is the empty object passes
    validation when its body is not empty. *)
Lemma C5_counterexample :
  ValidateJSON (dq "{'headers':{},'body':'x'}") = None.
Proof. vm_compute. reflexivity. Qed.

(** * Further properties

    What follows covers the rest of the behaviour of the package: the
    error paths, what the returned values always satisfy, and how cleaning
    and validation work together. *)

(** ** More on UTF-8 decoding and trimming *)
Section MoreUtf8Facts.
Import utf8.

Ltac firstByte_const k :=
  let v1 := eval vm_compute in (as_ <=? k) in change (as_ <=? k) with v1;
  try (let v2 := eval vm_compute in (N.odd k) in change (N.odd k) with v2);
  try (let v3 := eval vm_compute in (N.to_nat (N.land k 7)) in
       change (N.to_nat (N.land k 7)) with v3);
  try (let v4 := eval vm_compute in (acceptRanges (N.shiftr k 4)) in
       change (acceptRanges (N.shiftr k 4)) with v4);
  cbv iota zeta; cbn [fst snd Nat.leb].

Ltac firstByte_cases b :=
  let H := fresh "Hfirst" in
  destruct (first_cases b) as [H|[H|[H|[H|[H|[H|[H|[H|H]]]]]]]];
  rewrite !H; clear H;
  [ firstByte_const as_ | firstByte_const xx | firstByte_const s1
  | firstByte_const s2 | firstByte_const s3 | firstByte_const s4
  | firstByte_const s5 | firstByte_const s6 | firstByte_const s7 ].

(** Four bytes are all a decoding step looks at. *)
Lemma Decode_app_long (u v : bytes) :
  (4 <= length u)%nat -> DecodeRuneInString (u ++ v) = DecodeRuneInString u.
Proof.
  intros Hlen.
  assert (forall i, (i < 4)%nat -> at_ (u ++ v) i = at_ u i) as Hat
    by (intros i Hi; apply at_app_l; lia).
  unfold DecodeRuneInString. rewrite length_app, !Hat by lia.
  destruct (Nat.ltb_spec (length u + length v) 1); [lia|].
  destruct (Nat.ltb_spec (length u) 1); [lia|].
  cbv zeta.
  destruct (as_ <=? first (at_ u 0)); [reflexivity|].
  assert (N.to_nat (N.land (first (at_ u 0)) 7) <= 4)%nat as Hsz.
  { destruct (first_cases (at_ u 0)) as [HF|[HF|[HF|[HF|[HF|[HF|[HF|[HF|HF]]]]]]]];
      rewrite HF; vm_compute; lia. }
  destruct (Nat.ltb_spec (length u + length v) (N.to_nat (N.land (first (at_ u 0)) 7)));
    [lia|].
  destruct (Nat.ltb_spec (length u) (N.to_nat (N.land (first (at_ u 0)) 7)));
    [lia|].
  reflexivity.
Qed.

(** An ASCII byte behind a text does not turn its first rune into white
    space. *)
Lemma Decode_snoc_ascii (u : bytes) (c : ascii) :
  u <> [] -> (b2n c < 0x80)%N ->
  unicode.IsSpace (fst (DecodeRuneInString u)) = false ->
  unicode.IsSpace (fst (DecodeRuneInString (u ++ [c]))) = false.
Proof.
  intros Hne Hc.
  assert ((b2n c <? 128) = true) as Hc1 by (apply N.ltb_lt; exact Hc).
  assert ((b2n c <? 160) = true) as Hc2 by (apply N.ltb_lt; lia).
  assert ((b2n c <? 144) = true) as Hc3 by (apply N.ltb_lt; lia).
  destruct u as [|a0 [|a1 [|a2 [|a3 w]]]]; [done| | | |].
  4: { rewrite Decode_app_long by (cbn; lia). auto. }
  all: unfold DecodeRuneInString, at_; cbv zeta; cbn [app nth length Nat.ltb Nat.leb].
  all: firstByte_cases (b2n a0).
  all: unfold locb, hicb; rewrite ?Hc1, ?Hc2, ?Hc3; cbn [orb fst]; try (intros; reflexivity); try (exact (fun H => H)).
  all: repeat case_match; cbn [fst]; try (intros; reflexivity); try (exact (fun H => H)).
Qed.

Lemma first_ascii (b : N) : (b < 0x80)%N -> first b = as_.
Proof. intros H. unfold first. now destruct (N.ltb_spec b 0x80); [|lia]. Qed.

Lemma Decode_ascii (c : ascii) (r : bytes) :
  (b2n c < 0x80)%N -> DecodeRuneInString (c :: r) = (b2n c, 1%nat).
Proof.
  intros H. unfold DecodeRuneInString, at_. cbn [length nth Nat.ltb Nat.leb].
  cbv zeta. now rewrite (first_ascii _ H).
Qed.

Lemma DecodeLast_snoc_ascii (u : bytes) (c : ascii) :
  (b2n c < 0x80)%N -> DecodeLastRuneInString (u ++ [c]) = (b2n c, 1%nat).
Proof.
  intros H. unfold DecodeLastRuneInString, at_. cbv zeta.
  rewrite length_app. cbn [length].
  destruct (Nat.eqb_spec (length u + 1) 0); [lia|].
  replace (length u + 1 - 1)%nat with (length u) by lia.
  rewrite app_nth2, Nat.sub_diag by lia. cbn [nth].
  unfold RuneSelf. now destruct (N.ltb_spec (b2n c) 128); [|lia].
Qed.

Lemma RuneStart_ascii (c : ascii) : (b2n c < 0x80)%N -> RuneStart (b2n c) = true.
Proof.
  destruct c as [[] [] [] [] [] [] [] []]; vm_compute; intros H;
    try reflexivity; discriminate H.
Qed.

(** The backwards scan does not pass a rune start. *)
Lemma scanBack_stops (s : bytes) (lim k : nat) :
  RuneStart (at_ s k) = true ->
  forall steps start, (k <= start)%nat ->
    exists r, scanBack s lim steps start = Some r /\ (k <= r)%nat.
Proof.
  intros Hk. induction steps as [|steps IH]; intros start Hle; cbn [scanBack].
  - now exists start.
  - destruct (start <? lim)%nat; [now exists start|].
    destruct (RuneStart (at_ s start)) eqn:E; [now exists start|].
    destruct start as [|start'].
    + assert (k = 0%nat) as -> by lia. congruence.
    + apply IH. destruct (decide (k = S start')) as [->|]; [congruence | lia].
Qed.

(** Behind an ASCII byte the last rune of a text starts after that
    byte. *)
Lemma DecodeLast_behind_ascii (p : bytes) (c : ascii) (x : bytes) :
  (b2n c < 0x80)%N -> x <> [] ->
  (snd (DecodeLastRuneInString (p ++ c :: x)) <= length x)%nat.
Proof.
  intros Hc Hx.
  assert (0 < length x)%nat as Hlx by (destruct x; [done | cbn; lia]).
  set (s := p ++ c :: x).
  assert (length s = length p + S (length x))%nat as Hls
    by (subst s; rewrite length_app; reflexivity).
  assert (at_ s (length p) = b2n c) as Hat.
  { subst s. unfold at_. rewrite app_nth2, Nat.sub_diag by lia. reflexivity. }
  unfold DecodeLastRuneInString. cbv zeta.
  destruct (Nat.eqb_spec (length s) 0); [lia|].
  destruct (_ <? RuneSelf); [cbn [snd]; lia|].
  destruct (length s - 1)%nat as [|start'] eqn:Es; [lia|].
  destruct (scanBack_stops s (length s - UTFMax) (length p)
              ltac:(rewrite Hat; now apply RuneStart_ascii) UTFMax start' ltac:(lia))
    as (r & -> & Hr).
  change (default 0%nat (Some r)) with r.
  destruct (DecodeRuneInString (drop r s)) as [rr size] eqn:Ed.
  destruct (Nat.eqb_spec (r + size) (length s)) as [E|E]; cbn [negb snd]; [|lia].
  destruct (decide (r = length p)) as [->|Hne]; [|lia].
  subst s. rewrite drop_app_length, (Decode_ascii c x Hc) in Ed.
  injection Ed as <- <-. lia.
Qed.

End MoreUtf8Facts.

Section MoreTrimFacts.
Import utf8 gostrings.

Lemma TrimSpace_between_newlines (j : bytes) :
  TrimSpace j = j -> TrimSpace (lf :: j ++ [lf]) = j.
Proof.
  intros Hj. pose proof (TrimSpace_ends j) as Hends. rewrite Hj in Hends.
  assert (b2n lf < 0x80)%N as Hlf by (vm_compute; reflexivity).
  unfold TrimSpace, TrimFunc, TrimLeftFunc.
  cbn [length trimLeft]. rewrite (Decode_ascii lf _ Hlf).
  change (unicode.IsSpace (b2n lf)) with true. cbv iota.
  change (drop 1 (lf :: j ++ [lf])) with (j ++ [lf]).
  destruct (decide (j = [])) as [->|Hne]; [reflexivity|].
  destruct Hends as [->|[Hl Hr]]; [done|].
  rewrite trimLeft_fix
    by (right; now apply Decode_snoc_ascii).
  unfold TrimRightFunc. rewrite length_app, Nat.add_1_r. cbn [trimRight].
  destruct (j ++ [lf]) as [|x l] eqn:E; [now destruct j|]. rewrite <- E.
  rewrite (DecodeLast_snoc_ascii j lf Hlf).
  change (unicode.IsSpace (b2n lf)) with true. cbv iota.
  rewrite length_app, Nat.add_1_r. cbn [length].
  replace (S (length j) - 1)%nat with (length j) by lia.
  rewrite take_app_length. apply trimRight_fix. now right.
Qed.

(** Trimming on the right does not reach past an ASCII byte outside [f]. *)
Lemma trimRight_keeps (f : N -> bool) (p : bytes) (c : ascii) :
  (b2n c < 0x80)%N -> f (b2n c) = false ->
  forall fuel x, exists x', trimRight fuel f (p ++ c :: x) = p ++ c :: x'.
Proof.
  intros Hc Hf. induction fuel as [|fuel IH]; intros x; [now exists x|].
  cbn [trimRight].
  destruct (p ++ c :: x) as [|y l] eqn:E; [now destruct p|]. rewrite <- E.
  destruct (decide (x = [])) as [->|Hx].
  - change (p ++ [c]) with (p ++ [c]).
    rewrite (DecodeLast_snoc_ascii p c Hc), Hf. now exists [].
  - pose proof (DecodeLast_behind_ascii p c x Hc Hx) as Hsz.
    destruct (DecodeLastRuneInString (p ++ c :: x)) as [r size].
    cbn [snd] in Hsz. destruct (f r); [|now exists x].
    rewrite length_app. cbn [length].
    replace (length p + S (length x) - size)%nat
      with (length p + S (length x - size))%nat by lia.
    rewrite take_app_add. cbn [take]. apply IH.
Qed.

End MoreTrimFacts.

(** ** More on [cleanResponse] *)

Lemma bytesOf_append (a b : string) : bytesOf (a +:+ b) = bytesOf a ++ bytesOf b.
Proof.
  induction a as [|c a IH]; [reflexivity|].
  change (bytesOf (String c a +:+ b)) with (c :: bytesOf (a +:+ b)).
  now rewrite IH.
Qed.

Lemma stripTicks_sublist (s : bytes) : stripTicks s `sublist_of` s.
Proof.
  induction s as [| r IH | c s Hc IH] using stripTicks_ind.
  - reflexivity.
  - rewrite stripTicks_fence. now apply sublist_inserts_l.
  - rewrite (stripTicks_nofence _ _ Hc). now apply sublist_skip.
Qed.

Lemma dropJsonFence_sublist (s : bytes) : dropJsonFence s `sublist_of` s.
Proof.
  unfold dropJsonFence. destruct (stripPrefix jsonFence s) as [r|] eqn:E; [|reflexivity].
  rewrite (stripPrefix_Some _ _ _ E). apply sublist_inserts_l. reflexivity.
Qed.

Lemma TrimSpace_sublist (s : bytes) : gostrings.TrimSpace s `sublist_of` s.
Proof.
  destruct (TrimSpace_infix s) as (a & b & E). rewrite E at 2.
  apply sublist_inserts_l, sublist_inserts_r. reflexivity.
Qed.

(** X17.  [cleanResponse] only deletes: its result is the input with some
    bytes left out, in the same order, and is never longer than the
    input. *)
Theorem cleanResponse_only_deletes (input : string) :
  bytesOf (cleanResponse input) `sublist_of` bytesOf input /\
  (String.length (cleanResponse input) <= String.length input)%nat.
Proof.
  assert (bytesOf (cleanResponse input) `sublist_of` bytesOf input) as H.
  { rewrite cleanResponse_eq, bytesOf_stringOf.
    etrans; [apply TrimSpace_sublist|].
    etrans; [apply stripTicks_sublist | apply dropJsonFence_sublist]. }
  split; [exact H|]. rewrite <- !length_bytesOf. now apply sublist_length.
Qed.

(** X15.  The result of [cleanResponse] contains no triple backtick; so
    a text that contains one, also inside a JSON string, never comes back
    unchanged. *)
Theorem cleanResponse_leaves_no_fence (input : string) :
  hasFence (bytesOf (cleanResponse input)) = false /\
  (hasFence (bytesOf input) = true -> cleanResponse input <> input).
Proof.
  split; [apply hasFence_cleanResponse|].
  intros H E. pose proof (hasFence_cleanResponse input) as H'.
  rewrite E in H'. congruence.
Qed.

(** X16.  The result of [cleanResponse] is trimmed: [TrimSpace] leaves
    it as it is, and unless it is empty neither its first nor its last
    rune is white space. *)
Theorem cleanResponse_is_trimmed (input : string) :
  TrimSpace (cleanResponse input) = cleanResponse input /\
  (cleanResponse input = "" \/
   (unicode.IsSpace (fst (utf8.DecodeRuneInString (bytesOf (cleanResponse input)))) = false /\
    unicode.IsSpace (fst (utf8.DecodeLastRuneInString (bytesOf (cleanResponse input)))) = false)).
Proof.
  rewrite cleanResponse_eq. unfold TrimSpace. rewrite !bytesOf_stringOf.
  split; [now rewrite TrimSpace_idem|].
  destruct (TrimSpace_ends (stripTicks (dropJsonFence (bytesOf input)))) as [->|H];
    [now left | now right].
Qed.

(** X18.  On a text without a triple backtick [cleanResponse] is
    [TrimSpace]. *)
Theorem cleanResponse_without_fence (input : string) :
  hasFence (bytesOf input) = false ->
  cleanResponse input = TrimSpace input.
Proof.
  intros H. rewrite cleanResponse_eq.
  rewrite dropJsonFence_id by now apply hasFence_head.
  now rewrite stripTicks_id.
Qed.

Lemma lead2_app_nontick (u : bytes) (c : ascii) (r : bytes) :
  isTick c = false -> lead2 (u ++ c :: r) = lead2 u.
Proof.
  intros Hc. destruct u as [|x [|y u]]; cbn [app lead2 lead1].
  - now rewrite Hc.
  - now rewrite Hc.
  - reflexivity.
Qed.

(** A closing fence behind a text without fences, kept apart from it by
    a byte that is no backtick, is all that [stripTicks] removes. *)
Lemma stripTicks_final_fence (u : bytes) (c : ascii) :
  hasFence u = false -> isTick c = false ->
  stripTicks (u ++ c :: ticks) = u ++ [c].
Proof.
  intros Hu Hc. induction u as [|a u IH].
  - cbn [app]. rewrite stripTicks_nofence
      by (rewrite HasPrefix_ticks_cons, Hc; reflexivity).
    reflexivity.
  - pose proof (hasFence_head _ Hu) as Hh.
    cbn [hasFence] in Hu. apply orb_false_iff in Hu as [_ Hu].
    cbn [app]. rewrite stripTicks_nofence.
    + now rewrite IH.
    + rewrite HasPrefix_ticks_cons in Hh |- *.
      now rewrite lead2_app_nontick.
Qed.

Lemma bytesOf_fenced (tag j : string) :
  bytesOf (fenced tag j) = ticks ++ bytesOf tag ++ lf :: bytesOf j ++ lf :: ticks.
Proof.
  unfold fenced. rewrite !bytesOf_append. cbn [bytesOf list_ascii_of_string].
  fold (bytesOf j). rewrite bytesOf_append. reflexivity.
Qed.

Lemma dropJsonFence_tagged (r : bytes) :
  dropJsonFence (ticks ++ bytesOf "json" ++ r) = r.
Proof.
  unfold dropJsonFence. rewrite app_assoc, <- jsonFence_eq.
  now rewrite stripPrefix_app.
Qed.

Lemma dropJsonFence_untagged (c : ascii) (r : bytes) :
  Ascii.eqb "j" c = false -> dropJsonFence (ticks ++ c :: r) = ticks ++ c :: r.
Proof.
  intros Hc. unfold dropJsonFence.
  rewrite stripPrefix_jsonFence, stripPrefix_app.
  change (bytesOf "json") with ("j" :: bytesOf "son")%char.
  cbn [stripPrefix]. now rewrite Hc.
Qed.

Lemma isTick_lf : isTick lf = false.
Proof. reflexivity. Qed.

Lemma TrimSpace_bytes (j : string) :
  TrimSpace j = j -> gostrings.TrimSpace (bytesOf j) = bytesOf j.
Proof.
  intros Ht. unfold TrimSpace in Ht. apply (f_equal bytesOf) in Ht.
  now rewrite bytesOf_stringOf in Ht.
Qed.

(** The three steps of [cleanResponse] on the bytes of a code block, with
    the tag json and without a tag. *)
Lemma clean_block (j : bytes) :
  hasFence j = false -> gostrings.TrimSpace j = j ->
  gostrings.TrimSpace
    (stripTicks (dropJsonFence (ticks ++ bytesOf "json" ++ lf :: j ++ lf :: ticks))) = j /\
  gostrings.TrimSpace
    (stripTicks (dropJsonFence (ticks ++ lf :: j ++ lf :: ticks))) = j.
Proof.
  intros Hf Ht.
  assert (stripTicks (lf :: j ++ lf :: ticks) = lf :: j ++ [lf]) as Hs.
  { apply (stripTicks_final_fence (lf :: j) lf); [|exact isTick_lf].
    cbn [hasFence]. rewrite Hf, HasPrefix_ticks_cons, isTick_lf. reflexivity. }
  split.
  - now rewrite dropJsonFence_tagged, Hs, TrimSpace_between_newlines.
  - rewrite dropJsonFence_untagged by reflexivity.
    now rewrite stripTicks_fence, Hs, TrimSpace_between_newlines.
Qed.

(** X19.  Wrapping and cleaning is the identity: for a trimmed text [j]
    without a triple backtick, cleaning the code block around [j], tagged
    json or not tagged, gives [j] back. *)
Theorem cleanResponse_fenced (j : string) :
  hasFence (bytesOf j) = false ->
  TrimSpace j = j ->
  cleanResponse (fenced "json" j) = j /\ cleanResponse (fenced "" j) = j.
Proof.
  intros Hf Ht. apply TrimSpace_bytes in Ht.
  destruct (clean_block (bytesOf j) Hf Ht) as [H1 H2].
  split; rewrite cleanResponse_eq, bytesOf_fenced.
  - rewrite H1. apply stringOf_bytesOf.
  - change (bytesOf "") with (@nil ascii). cbn [app].
    rewrite H2. apply stringOf_bytesOf.
Qed.

Lemma isTick_false (c : ascii) : c <> "`"%char -> isTick c = false.
Proof.
  intros Hc. unfold isTick.
  destruct (Ascii.eqb_spec "`"%char c); [congruence | reflexivity].
Qed.

(** Behind a byte that is no backtick the fence loses its backticks and
    keeps its tag. *)
Lemma stripTicks_behind_byte (c : ascii) (r : bytes) :
  isTick c = false ->
  stripTicks (dropJsonFence (c :: ticks ++ bytesOf "json" ++ r))
  = c :: bytesOf "json" ++ stripTicks r.
Proof.
  intros Hc'.
  rewrite dropJsonFence_id by (rewrite HasPrefix_ticks_cons, Hc'; reflexivity).
  rewrite stripTicks_nofence by (rewrite HasPrefix_ticks_cons, Hc'; reflexivity).
  rewrite stripTicks_fence.
  change (bytesOf "json") with ["j"; "s"; "o"; "n"]%char. cbn [app].
  rewrite !stripTicks_nofence by (rewrite HasPrefix_ticks_cons; reflexivity).
  reflexivity.
Qed.

(** X20.  The json tag is removed at offset 0 only: when a byte other
    than a backtick stands before the opening fence, the backticks go and
    the tag stays in the text. *)
Theorem cleanResponse_fence_not_at_start (c : ascii) (rest : string) :
  c <> "`"%char ->
  cleanResponse (String c ("```json" +:+ rest))
  = TrimSpace (String c ("json" +:+ stringOf (stripTicks (bytesOf rest)))).
Proof.
  intros Hc. apply isTick_false in Hc.
  rewrite cleanResponse_eq. unfold TrimSpace. do 2 f_equal.
  change (bytesOf (String c ("```json" +:+ rest)))
    with (c :: ticks ++ bytesOf "json" ++ bytesOf rest).
  change (bytesOf (String c ("json" +:+ stringOf (stripTicks (bytesOf rest)))))
    with (c :: bytesOf "json" ++ bytesOf (stringOf (stripTicks (bytesOf rest)))).
  rewrite bytesOf_stringOf. now apply stripTicks_behind_byte.
Qed.

Lemma Valid_starts_with_j (l : bytes) : json.Valid ("j"%char :: l) = false.
Proof. reflexivity. Qed.

Lemma cleanResponse_tag_stays (c : ascii) (tail : string) :
  (b2n c < 0x80)%N -> unicode.IsSpace (b2n c) = true ->
  exists t, cleanResponse (String c ("```json" +:+ tail)) = "json" +:+ t.
Proof.
  intros Hc Hs.
  assert (c <> "`"%char) as Hne by (intros ->; discriminate).
  apply isTick_false in Hne.
  rewrite cleanResponse_eq.
  change (bytesOf (String c ("```json" +:+ tail)))
    with (c :: ticks ++ bytesOf "json" ++ bytesOf tail).
  rewrite (stripTicks_behind_byte c _ Hne).
  set (y := stripTicks (bytesOf tail)).
  change (c :: bytesOf "json" ++ y)
    with (c :: ["j"; "s"; "o"]%char ++ "n"%char :: y).
  unfold gostrings.TrimSpace, gostrings.TrimFunc, gostrings.TrimLeftFunc.
  cbn [length gostrings.trimLeft]. rewrite (Decode_ascii c _ Hc), Hs.
  change (drop 1 (c :: ["j"; "s"; "o"]%char ++ "n"%char :: y))
    with (["j"; "s"; "o"]%char ++ "n"%char :: y).
  rewrite trimLeft_fix by (right; reflexivity).
  unfold gostrings.TrimRightFunc.
  destruct (trimRight_keeps unicode.IsSpace ["j"; "s"; "o"]%char "n"%char
              ltac:(reflexivity) ltac:(reflexivity)
              (length (["j"; "s"; "o"]%char ++ "n"%char :: y)) y)
    as [x' ->].
  now exists (stringOf x').
Qed.

(** ** [ValidateJSON] *)

Lemma Valid_nil : json.Valid [] = false.
Proof. reflexivity. Qed.

(** What an accepted text decodes to. *)
Lemma ValidateJSON_accepted (jsonStr : string) :
  ValidateJSON jsonStr = None ->
  json.Valid (bytesOf jsonStr) = true /\
  exists resp,
    json.Unmarshal (bytesOf jsonStr) zeroResponse = (resp, None) /\
    is_Some (Headers resp) /\ Body resp <> "".
Proof.
  unfold ValidateJSON. cbv zeta.
  destruct (json.Valid (bytesOf jsonStr)); cbn [negb]; [|discriminate].
  destruct (json.Unmarshal (bytesOf jsonStr) zeroResponse) as [resp [err|]];
    [discriminate|].
  unfold validator.Struct, validator.hasValue_map, validator.hasValue_string.
  destruct resp as [[h|] b]; cbn [Headers Body];
    destruct (String.eqb_spec b "") as [->|Hb]; cbn [negb app];
    try discriminate.
  intros _. split; [reflexivity|].
  eexists. split; [reflexivity|]. split; [now eexists | exact Hb].
Qed.

(** X11.  [ValidateJSON] returns nil exactly for a text that is valid
    JSON and decodes without error into a response whose headers map is
    not nil and whose body is not empty. *)
Theorem ValidateJSON_accepts_iff (jsonStr : string) :
  ValidateJSON jsonStr = None <->
  json.Valid (bytesOf jsonStr) = true /\
  exists resp,
    json.Unmarshal (bytesOf jsonStr) zeroResponse = (resp, None) /\
    is_Some (Headers resp) /\ Body resp <> "".
Proof.
  split; [apply ValidateJSON_accepted|].
  intros (Hv & resp & Hu & [h Hh] & Hb).
  unfold ValidateJSON. cbv zeta. rewrite Hv, Hu. cbn [negb].
  unfold validator.Struct, validator.hasValue_map, validator.hasValue_string.
  rewrite Hh. destruct (String.eqb_spec (Body resp) ""); [contradiction|].
  reflexivity.
Qed.

Lemma storeString_saved (path : string) (v : json.Value) (cur e : string) :
  snd (json.storeString path v cur (Some e)) = Some e.
Proof. now destruct v. Qed.

Lemma storeMembers_saved (ms : list (bytes * json.Value)) :
  forall m e, snd (json.storeMembers ms m (Some e)) = Some e.
Proof.
  induction ms as [|[k v] ms IH]; intros m e; [reflexivity|].
  cbn [json.storeMembers].
  pose proof (storeString_saved
                (json.fieldName json.fHeaders +:+ "." +:+ stringOf k) v "" e) as H.
  destruct (json.storeString _ v "" (Some e)) as [elem saved].
  cbn in H. subst saved. apply IH.
Qed.

Lemma storeMap_saved (v : json.Value) (cur : option (gmap string string)) (e : string) :
  snd (json.storeMap v cur (Some e)) = Some e.
Proof.
  destruct v; try reflexivity. cbn [json.storeMap].
  pose proof (storeMembers_saved members (default ∅ cur) e) as H.
  now destruct (json.storeMembers members (default ∅ cur) (Some e)).
Qed.

(** An error, once saved, stays to the end. *)
Lemma storeFields_saved (ms : list (bytes * json.Value)) :
  forall resp e, snd (json.storeFields ms resp (Some e)) = Some e.
Proof.
  induction ms as [|[k v] ms IH]; intros resp e; [reflexivity|].
  cbn [json.storeFields]. destruct (json.lookupField k) as [[|]|].
  - pose proof (storeMap_saved v (Headers resp) e) as H.
    destruct (json.storeMap v (Headers resp) (Some e)) as [h saved].
    cbn in H. subst saved. apply IH.
  - pose proof (storeString_saved (json.fieldName json.fBody) v (Body resp) e) as H.
    destruct (json.storeString _ v (Body resp) (Some e)) as [b saved].
    cbn in H. subst saved. apply IH.
  - apply IH.
Qed.

Lemma storeFields_no_body (ms : list (bytes * json.Value)) :
  Forall (fun kv => json.lookupField (fst kv) <> Some json.fBody) ms ->
  forall resp saved, Body (fst (json.storeFields ms resp saved)) = Body resp.
Proof.
  induction 1 as [|[k v] ms Hk _ IH]; intros resp saved; [reflexivity|].
  cbn [json.storeFields]. cbn [fst] in Hk.
  destruct (json.lookupField k) as [[|]|]; [|done|apply IH].
  destruct (json.storeMap v (Headers resp) saved) as [h saved'].
  now rewrite IH.
Qed.

Lemma storeFields_no_headers (ms : list (bytes * json.Value)) :
  Forall (fun kv => json.lookupField (fst kv) <> Some json.fHeaders) ms ->
  forall resp saved, Headers (fst (json.storeFields ms resp saved)) = Headers resp.
Proof.
  induction 1 as [|[k v] ms Hk _ IH]; intros resp saved; [reflexivity|].
  cbn [json.storeFields]. cbn [fst] in Hk.
  destruct (json.lookupField k) as [[|]|]; [done| |apply IH].
  destruct (json.storeString _ v (Body resp) saved) as [b saved'].
  now rewrite IH.
Qed.

(** X12.  A JSON object in which no key names the body field, or no key
    names the headers field, is rejected. *)
Theorem ValidateJSON_missing_key (jsonStr : string) (ms : list (bytes * json.Value)) :
  json.Valid (bytesOf jsonStr) = true ->
  json.read (bytesOf jsonStr) = Some (json.Object ms) ->
  Forall (fun kv => json.lookupField (fst kv) <> Some json.fBody) ms \/
  Forall (fun kv => json.lookupField (fst kv) <> Some json.fHeaders) ms ->
  ValidateJSON jsonStr <> None.
Proof.
  intros Hvalid Hread Hmiss. rewrite (ValidateJSON_read _ _ Hvalid Hread).
  cbn [json.store].
  destruct (json.storeFields ms zeroResponse None) as [resp [err|]] eqn:E;
    [discriminate|].
  assert (Body resp = "" \/ Headers resp = None) as Hzero.
  { destruct Hmiss as [H|H].
    - left. pose proof (storeFields_no_body ms H zeroResponse None) as Hb.
      now rewrite E in Hb.
    - right. pose proof (storeFields_no_headers ms H zeroResponse None) as Hh.
      now rewrite E in Hh. }
  unfold validator.Struct, validator.hasValue_map, validator.hasValue_string.
  destruct resp as [h b]. cbn [Headers Body] in *.
  destruct Hzero as [->| ->]; [destruct h|]; cbn [String.eqb negb app]; discriminate.
Qed.

(** X13.  A valid JSON text that is not an object is rejected: null
    leaves both fields empty and fails the validation of both, any other
    value is an unmarshalling error that names its kind. *)
Theorem ValidateJSON_not_an_object (jsonStr : string) (v : json.Value) :
  json.Valid (bytesOf jsonStr) = true ->
  json.read (bytesOf jsonStr) = Some v ->
  (forall ms, v <> json.Object ms) ->
  ValidateJSON jsonStr =
  Some match v with
       | json.Null =>
           "validation error: "
           +:+ validator.fieldErrMsg "JSONResponse.Headers" "Headers" "required"
           +:+ String lf (validator.fieldErrMsg "JSONResponse.Body" "Body" "required")
       | _ =>
           "error unmarshalling JSON: json: cannot unmarshal " +:+ json.kindOf v
           +:+ " into Go value of type llm.JSONResponse"
       end.
Proof.
  intros Hvalid Hread Hobj. rewrite (ValidateJSON_read _ _ Hvalid Hread).
  destruct v; try reflexivity.
  now destruct (Hobj members).
Qed.

Lemma storeMembers_headerValues (hs : list (bytes * json.Value)) :
  forall m,
    snd (json.storeMembers hs m None) = None <->
    Forall (fun kv => headerValue (snd kv) = true) hs.
Proof.
  induction hs as [|[k v] hs IH]; intros m; [split; [constructor | reflexivity]|].
  cbn [json.storeMembers].
  destruct v; cbn [json.storeString json.saveError];
    try (rewrite storeMembers_saved; split; [discriminate|];
         intros H; apply Forall_cons in H as [H _]; discriminate).
  - rewrite IH. split; [now constructor | now intros H; apply Forall_cons in H as [_ H]].
  - rewrite IH. split; [now constructor | now intros H; apply Forall_cons in H as [_ H]].
Qed.

(** X14.  For a text of the expected shape, an object with the members
    headers, an object, and body, a string, [ValidateJSON] returns nil
    exactly when every header value is a string or null and the body is
    not empty; a header value of another kind is an unmarshalling
    error. *)
Theorem ValidateJSON_headers_and_body (jsonStr : string)
    (hs : list (bytes * json.Value)) (body : bytes) :
  json.Valid (bytesOf jsonStr) = true ->
  json.read (bytesOf jsonStr)
    = Some (json.Object [(bytesOf "headers", json.Object hs);
                         (bytesOf "body", json.Str body)]) ->
  (ValidateJSON jsonStr = None <->
   Forall (fun kv => headerValue (snd kv) = true) hs /\ body <> []) /\
  (~ Forall (fun kv => headerValue (snd kv) = true) hs ->
   exists err, ValidateJSON jsonStr = Some ("error unmarshalling JSON: " +:+ err)).
Proof.
  intros Hvalid Hread.
  rewrite (ValidateJSON_read _ _ Hvalid Hread).
  cbn [json.store json.storeFields].
  change (json.lookupField (bytesOf "headers")) with (Some json.fHeaders).
  change (json.lookupField (bytesOf "body")) with (Some json.fBody).
  cbn [json.storeMap zeroResponse Headers Body default].
  pose proof (storeMembers_headerValues hs ∅) as Hhs.
  destruct (json.storeMembers hs ∅ None) as [m [err|]]; cbn [snd] in Hhs;
    cbn [json.storeString Headers Body].
  - split.
    + split; [discriminate|]. intros [H _]. apply Hhs in H. discriminate.
    + intros _. now exists err.
  - split.
    + unfold validator.Struct, validator.hasValue_map, validator.hasValue_string.
      cbn [Headers Body].
      destruct (String.eqb_spec (stringOf body) "") as [E|E]; cbn [negb app].
      * apply stringOf_nil_inv in E. subst body.
        split; [discriminate | now intros [_ ?]].
      * split; [|reflexivity]. intros _. split; [now apply Hhs|].
        intros ->. now apply E.
    + intros H. destruct H. now apply Hhs.
Qed.

(** ** More on the functions of the package *)

Section MorePackageFacts.
Context `{Ext : Externals} `{Init : !Initialisers}.

(** X2.  When the request can be dumped, [CreateMessageContent] returns
    two messages for the providers openai, anthropic, ollama and cohere,
    spelled exactly so, and one message for every other provider
    string. *)
Theorem CreateMessageContent_count (r : http_Request) (cfg : config.Config)
    (provider : string) (httpReq : bytes) :
  DumpRequest r true = (httpReq, None) ->
  length (fst (CreateMessageContent r cfg provider))
  = if bool_decide (provider ∈ ["openai"; "anthropic"; "ollama"; "cohere"])
    then 2%nat else 1%nat.
Proof.
  intros H. unfold CreateMessageContent. rewrite H.
  pose proof (supportsSystemPrompt_spec provider) as Hs.
  destruct (index supportsSystemPrompt provider).
  - rewrite bool_decide_eq_true_2; [reflexivity|].
    rewrite !elem_of_cons, elem_of_nil. tauto.
  - rewrite bool_decide_eq_false_2; [reflexivity|].
    rewrite !elem_of_cons, elem_of_nil.
    intros Hin. assert (false = true) as Hf; [|discriminate].
    apply Hs. tauto.
Qed.

(** X3.  The capability table names supported providers only: a
    provider with the system-prompt capability is one of openai,
    anthropic, cohere and ollama, and [New] does not take the default
    branch for it but returns what the initialiser of that very provider
    returns. *)
Theorem capability_implies_supported (ctx : context_Context) (config : Config) :
  index supportsSystemPrompt (Provider config) = true ->
  (Provider config = "openai" /\ New ctx config = initOpenAIClient config) \/
  (Provider config = "anthropic" /\ New ctx config = initAnthropicClient config) \/
  (Provider config = "cohere" /\ New ctx config = initCohereClient config) \/
  (Provider config = "ollama" /\ New ctx config = initOllamaClient config).
Proof.
  intros H. apply supportsSystemPrompt_spec in H.
  unfold New. cbv zeta.
  destruct H as [E|[E|[E|E]]]; rewrite E; cbn; auto 6.
Qed.

(** X4.  When the model returns an error, [GenerateLLMResponse] returns
    the empty text and the error contentGenerationError: followed by the
    text of the model's error, whatever response came with it. *)
Theorem GenerateLLMResponse_backend_error (ctx : context_Context)
    (model : llms.Model) (temperature : float64)
    (messages : list llms.MessageContent)
    (response : option llms.ContentResponse) (err : error) :
  theCall ctx model temperature messages = (response, Some err) ->
  GenerateLLMResponse ctx model temperature messages
    = ("", Some ("contentGenerationError: " +:+ err)) /\
  errorKind ("contentGenerationError: " +:+ err) = "contentGenerationError".
Proof.
  intros H. unfold theCall in H. unfold GenerateLLMResponse. rewrite H.
  split; reflexivity.
Qed.

(** X5.  Every error of [GenerateLLMResponse] has one of three kinds.
    With contentGenerationError and emptyLLMResponse the returned text is
    empty; with invalidJSONResponse it is a text that [ValidateJSON]
    rejects. *)
Theorem GenerateLLMResponse_error_kinds (ctx : context_Context)
    (model : llms.Model) (temperature : float64)
    (messages : list llms.MessageContent) (resp : string) (e : error) :
  GenerateLLMResponse ctx model temperature messages = (resp, Some e) ->
  (errorKind e = "contentGenerationError" /\ resp = "") \/
  (errorKind e = "emptyLLMResponse" /\ resp = "") \/
  (errorKind e = "invalidJSONResponse" /\ ValidateJSON resp <> None).
Proof.
  unfold GenerateLLMResponse.
  destruct (llms.GenerateContent model ctx messages _) as [response [err|]].
  { intros [= <- <-]. left. split; reflexivity. }
  destruct response as [[cs]|]; [|intros [= <- <-]; right; left; split; reflexivity].
  destruct cs as [|choice0 rest];
    [intros [= <- <-]; right; left; split; reflexivity|].
  cbn [llms.Choices].
  destruct (String.eqb (llms.Content choice0) "");
    [intros [= <- <-]; right; left; split; reflexivity|].
  destruct (ValidateJSON (cleanResponse (llms.Content choice0))) as [err|] eqn:Ev;
    [|discriminate].
  intros [= <- <-]. right. right. split; [reflexivity|]. now rewrite Ev.
Qed.

(** X6.  When [GenerateLLMResponse] returns no error, the returned text
    is the cleaned content of the first choice, cleaning it again changes
    nothing, it contains no triple backtick, and it decodes without error
    into a response with a headers map and a body that is not empty. *)
Theorem GenerateLLMResponse_success (ctx : context_Context)
    (model : llms.Model) (temperature : float64)
    (messages : list llms.MessageContent) (resp : string) :
  GenerateLLMResponse ctx model temperature messages = (resp, None) ->
  (exists choice0 rest,
     theCall ctx model temperature messages
       = (Some {| llms.Choices := choice0 :: rest |}, None) /\
     resp = cleanResponse (llms.Content choice0)) /\
  cleanResponse resp = resp /\
  hasFence (bytesOf resp) = false /\
  exists decoded,
    json.Unmarshal (bytesOf resp) zeroResponse = (decoded, None) /\
    is_Some (Headers decoded) /\ Body decoded <> "".
Proof.
  unfold theCall, GenerateLLMResponse.
  destruct (llms.GenerateContent model ctx messages _) as [response [err|]];
    [discriminate|].
  destruct response as [[cs]|]; [|discriminate].
  destruct cs as [|choice0 rest]; [discriminate|].
  cbn [llms.Choices].
  destruct (String.eqb (llms.Content choice0) ""); [discriminate|].
  destruct (ValidateJSON (cleanResponse (llms.Content choice0))) as [err|] eqn:Ev;
    [discriminate|].
  intros [= <-]. split; [now exists choice0, rest|].
  split; [apply cleanResponse_idem|].
  split; [apply hasFence_cleanResponse|].
  apply ValidateJSON_accepted in Ev as [_ Hd]. exact Hd.
Qed.

(** X8.  An answer that is not empty but of which cleaning leaves
    nothing, fences and white space only, is not reported as an empty
    response: the error is invalidJSONResponse: input is not valid
    JSON. *)
Theorem GenerateLLMResponse_cleans_to_nothing (ctx : context_Context)
    (model : llms.Model) (temperature : float64)
    (messages : list llms.MessageContent)
    (choice0 : llms.ContentChoice) (rest : list llms.ContentChoice) :
  theCall ctx model temperature messages
    = (Some {| llms.Choices := choice0 :: rest |}, None) ->
  llms.Content choice0 <> "" ->
  cleanResponse (llms.Content choice0) = "" ->
  GenerateLLMResponse ctx model temperature messages
    = ("", Some "invalidJSONResponse: input is not valid JSON").
Proof.
  intros Hcall Hne Hclean. unfold theCall in Hcall.
  unfold GenerateLLMResponse. rewrite Hcall. cbn [llms.Choices].
  destruct (String.eqb_spec (llms.Content choice0) "") as [|_]; [done|].
  rewrite Hclean. reflexivity.
Qed.

(** X9.  A trimmed text [j] without a triple backtick that
    [ValidateJSON] accepts is returned as it is, without error, when the
    first choice is [j] itself or [j] in a code block, tagged json or not
    tagged. *)
Theorem GenerateLLMResponse_fenced_answer (ctx : context_Context)
    (model : llms.Model) (temperature : float64)
    (messages : list llms.MessageContent)
    (choice0 : llms.ContentChoice) (rest : list llms.ContentChoice) (j : string) :
  theCall ctx model temperature messages
    = (Some {| llms.Choices := choice0 :: rest |}, None) ->
  ValidateJSON j = None ->
  hasFence (bytesOf j) = false ->
  TrimSpace j = j ->
  llms.Content choice0 = fenced "json" j \/ llms.Content choice0 = fenced "" j
  \/ llms.Content choice0 = j ->
  GenerateLLMResponse ctx model temperature messages = (j, None).
Proof.
  intros Hcall Hvalid Hfence Htrim Hcontent. unfold theCall in Hcall.
  unfold GenerateLLMResponse. rewrite Hcall. cbn [llms.Choices].
  pose proof (TrimSpace_bytes j Htrim) as Htrim'.
  destruct (clean_block (bytesOf j) Hfence Htrim') as [H1 H2].
  assert (j <> "") as Hj.
  { intros ->. discriminate. }
  assert (cleanResponse (llms.Content choice0) = j /\ llms.Content choice0 <> "")
    as [Hc Hne].
  { destruct Hcontent as [->|[->| ->]].
    - split; [|discriminate].
      rewrite cleanResponse_eq, bytesOf_fenced, H1. apply stringOf_bytesOf.
    - split; [|discriminate].
      rewrite cleanResponse_eq, bytesOf_fenced.
      change (bytesOf "") with (@nil ascii). cbn [app].
      rewrite H2. apply stringOf_bytesOf.
    - split; [|exact Hj].
      rewrite cleanResponse_eq.
      rewrite dropJsonFence_id by now apply hasFence_head.
      now rewrite stripTicks_id. }
  destruct (String.eqb_spec (llms.Content choice0) "") as [|_]; [done|].
  now rewrite Hc, Hvalid.
Qed.

(** X1.  The error of [CreateMessageContent] is the error of
    [DumpRequest], unchanged, and the list of messages is empty exactly
    when there is an error. *)
Theorem CreateMessageContent_error_iff (r : http_Request) (cfg : config.Config)
    (provider : string) :
  snd (CreateMessageContent r cfg provider) = snd (DumpRequest r true) /\
  (fst (CreateMessageContent r cfg provider) = [] <-> snd (DumpRequest r true) <> None).
Proof.
  unfold CreateMessageContent.
  destruct (DumpRequest r true) as [httpReq [err|]]; cbn [fst snd].
  - split; [reflexivity|]. split; [discriminate | reflexivity].
  - destruct (index supportsSystemPrompt provider); cbn [fst snd];
      (split; [reflexivity|]; split; [discriminate | now intros []]).
Qed.

(** X7.  Whatever the model answers, the text [GenerateLLMResponse]
    returns contains no triple backtick and is a fixed point of
    [cleanResponse]. *)
Theorem GenerateLLMResponse_returned_text (ctx : context_Context)
    (model : llms.Model) (temperature : float64)
    (messages : list llms.MessageContent) :
  let out := fst (GenerateLLMResponse ctx model temperature messages) in
  hasFence (bytesOf out) = false /\ cleanResponse out = out.
Proof.
  cbv zeta. unfold GenerateLLMResponse.
  destruct (llms.GenerateContent model ctx messages _) as [response [err|]];
    [split; reflexivity|].
  destruct response as [[cs]|]; [|split; reflexivity].
  destruct cs as [|choice0 rest]; [split; reflexivity|].
  cbn [llms.Choices].
  destruct (String.eqb (llms.Content choice0) ""); [split; reflexivity|].
  destruct (ValidateJSON (cleanResponse (llms.Content choice0))); cbn [fst];
    (split; [apply hasFence_cleanResponse | apply cleanResponse_idem]).
Qed.

(** X10.  When one byte of ASCII white space stands before a code block
    tagged json, the answer is rejected: the tag stays in front of the
    cleaned text, which is then not valid JSON. *)
Theorem GenerateLLMResponse_fence_after_space (ctx : context_Context)
    (model : llms.Model) (temperature : float64)
    (messages : list llms.MessageContent)
    (choice0 : llms.ContentChoice) (rest : list llms.ContentChoice)
    (c : ascii) (tail : string) :
  theCall ctx model temperature messages
    = (Some {| llms.Choices := choice0 :: rest |}, None) ->
  llms.Content choice0 = String c ("```json" +:+ tail) ->
  (b2n c < 0x80)%N -> unicode.IsSpace (b2n c) = true ->
  exists t,
    GenerateLLMResponse ctx model temperature messages
    = ("json" +:+ t, Some "invalidJSONResponse: input is not valid JSON").
Proof.
  intros Hcall Hcontent Hc Hs. unfold theCall in Hcall.
  destruct (cleanResponse_tag_stays c tail Hc Hs) as [t Ht].
  exists t. unfold GenerateLLMResponse. rewrite Hcall. cbn [llms.Choices].
  rewrite Hcontent. cbn [String.eqb]. rewrite Ht.
  unfold ValidateJSON. cbv zeta.
  change (bytesOf ("json" +:+ t)) with ("j"%char :: bytesOf ("son" +:+ t)).
  now rewrite Valid_starts_with_j.
Qed.

End MorePackageFacts.

(** ** Concrete runs of the further properties *)

Lemma CreateMessageContent_count_witness :
  length (fst (@CreateMessageContent testExternals "GET / HTTP/1.1"
                 {| config.SystemPrompt := "sys"; config.UserPrompt := "req: " |}
                 "OpenAI")) = 1%nat.
Proof.
  pose proof (@CreateMessageContent_count testExternals "GET / HTTP/1.1"
                {| config.SystemPrompt := "sys"; config.UserPrompt := "req: " |}
                "OpenAI" (bytesOf "GET / HTTP/1.1") eq_refl) as H.
  rewrite H. vm_compute. reflexivity.
Defined.

Lemma capability_implies_supported_witness :
  @New testExternals namedInitialisers tt (testConfig "cohere")
  = (None, Some "cohere: not configured").
Proof.
  destruct (@capability_implies_supported testExternals namedInitialisers tt
              (testConfig "cohere") ltac:(vm_compute; reflexivity))
    as [[E _]|[[E _]|[[_ H]|[E _]]]]; try discriminate E.
  exact H.
Defined.

Lemma GenerateLLMResponse_backend_error_witness :
  @GenerateLLMResponse testExternals tt
    (constModel (Some (choices [dq "{'headers':{'a':'b'},'body':'x'}"]))
                (Some "deadline exceeded")) tt []
  = ("", Some "contentGenerationError: deadline exceeded").
Proof.
  apply (@GenerateLLMResponse_backend_error testExternals tt
           (constModel (Some (choices [dq "{'headers':{'a':'b'},'body':'x'}"]))
                       (Some "deadline exceeded")) tt []
           (Some (choices [dq "{'headers':{'a':'b'},'body':'x'}"]))
           "deadline exceeded").
  reflexivity.
Defined.

Lemma GenerateLLMResponse_error_kinds_witness :
  (errorKind "invalidJSONResponse: input is not valid JSON" = "contentGenerationError"
   /\ "not json" = "") \/
  (errorKind "invalidJSONResponse: input is not valid JSON" = "emptyLLMResponse"
   /\ "not json" = "") \/
  (errorKind "invalidJSONResponse: input is not valid JSON" = "invalidJSONResponse"
   /\ ValidateJSON "not json" <> None).
Proof.
  apply (@GenerateLLMResponse_error_kinds testExternals tt
           (constModel (Some (choices ["not json"])) None) tt []).
  vm_compute. reflexivity.
Defined.

Lemma GenerateLLMResponse_success_witness :
  (exists choice0 rest,
     @theCall testExternals tt (constModel (Some (choices [fencedAnswer])) None) tt []
       = (Some {| llms.Choices := choice0 :: rest |}, None) /\
     dq "{'headers':{'a':'b'},'body':'x'}" = cleanResponse (llms.Content choice0)) /\
  cleanResponse (dq "{'headers':{'a':'b'},'body':'x'}")
    = dq "{'headers':{'a':'b'},'body':'x'}" /\
  hasFence (bytesOf (dq "{'headers':{'a':'b'},'body':'x'}")) = false /\
  exists decoded,
    json.Unmarshal (bytesOf (dq "{'headers':{'a':'b'},'body':'x'}")) zeroResponse
      = (decoded, None) /\
    is_Some (Headers decoded) /\ Body decoded <> "".
Proof.
  apply (@GenerateLLMResponse_success testExternals tt
           (constModel (Some (choices [fencedAnswer])) None) tt []).
  vm_compute. reflexivity.
Defined.

Lemma GenerateLLMResponse_cleans_to_nothing_witness :
  @GenerateLLMResponse testExternals tt
    (constModel (Some (choices [fenced "json" " "])) None) tt []
  = ("", Some "invalidJSONResponse: input is not valid JSON").
Proof.
  apply (@GenerateLLMResponse_cleans_to_nothing testExternals tt
           (constModel (Some (choices [fenced "json" " "])) None) tt []
           {| llms.Content := fenced "json" " "; llms.StopReason := "" |} []).
  - reflexivity.
  - discriminate.
  - vm_compute. reflexivity.
Defined.

Lemma GenerateLLMResponse_fenced_answer_witness :
  @GenerateLLMResponse testExternals tt
    (constModel
       (Some (choices [fenced "" (dq "{'headers':{'a':'b'},'body':'x'}")])) None) tt []
  = (dq "{'headers':{'a':'b'},'body':'x'}", None).
Proof.
  apply (@GenerateLLMResponse_fenced_answer testExternals tt
           (constModel
              (Some (choices [fenced "" (dq "{'headers':{'a':'b'},'body':'x'}")])) None)
           tt []
           {| llms.Content := fenced "" (dq "{'headers':{'a':'b'},'body':'x'}");
              llms.StopReason := "" |} []).
  - reflexivity.
  - vm_compute. reflexivity.
  - vm_compute. reflexivity.
  - vm_compute. reflexivity.
  - right. left. reflexivity.
Defined.

Lemma GenerateLLMResponse_fence_after_space_witness :
  exists t,
    @GenerateLLMResponse testExternals tt
      (constModel (Some (choices [String lf fencedAnswer])) None) tt []
    = ("json" +:+ t, Some "invalidJSONResponse: input is not valid JSON").
Proof.
  apply (@GenerateLLMResponse_fence_after_space testExternals tt
           (constModel (Some (choices [String lf fencedAnswer])) None) tt []
           {| llms.Content := String lf fencedAnswer; llms.StopReason := "" |} []
           lf (String lf (dq "{'headers':{'a':'b'},'body':'x'}" +:+ String lf "```"))).
  - reflexivity.
  - reflexivity.
  - vm_compute. reflexivity.
  - vm_compute. reflexivity.
Defined.

Lemma ValidateJSON_missing_key_witness :
  ValidateJSON (dq "{'headers':{'a':'b'}}") <> None.
Proof.
  apply (ValidateJSON_missing_key (dq "{'headers':{'a':'b'}}")
           [(bytesOf "headers", json.Object [(bytesOf "a", json.Str (bytesOf "b"))])]).
  - vm_compute. reflexivity.
  - vm_compute. reflexivity.
  - left. repeat constructor. vm_compute. discriminate.
Defined.

Lemma ValidateJSON_not_an_object_witness :
  ValidateJSON "[1,2]"
  = Some "error unmarshalling JSON: json: cannot unmarshal array into Go value of type llm.JSONResponse".
Proof.
  apply (ValidateJSON_not_an_object "[1,2]"
           (json.Array [json.Number (bytesOf "1"); json.Number (bytesOf "2")])).
  - vm_compute. reflexivity.
  - vm_compute. reflexivity.
  - discriminate.
Defined.

Lemma ValidateJSON_headers_and_body_witness :
  exists err,
    ValidateJSON (dq "{'headers':{'Content-Length':42},'body':'x'}")
    = Some ("error unmarshalling JSON: " +:+ err).
Proof.
  apply (ValidateJSON_headers_and_body
           (dq "{'headers':{'Content-Length':42},'body':'x'}")
           [(bytesOf "Content-Length", json.Number (bytesOf "42"))] (bytesOf "x")).
  - vm_compute. reflexivity.
  - vm_compute. reflexivity.
  - intros H. apply Forall_cons in H as [H _]. discriminate.
Defined.

Lemma cleanResponse_without_fence_witness :
  cleanResponse "  {`a``b`}  " = TrimSpace "  {`a``b`}  ".
Proof.
  apply (cleanResponse_without_fence "  {`a``b`}  ").
  vm_compute. reflexivity.
Defined.

Lemma cleanResponse_fenced_witness :
  cleanResponse (fenced "json" (dq "{'body':'``', 'headers':{}}"))
    = dq "{'body':'``', 'headers':{}}" /\
  cleanResponse (fenced "" (dq "{'body':'``', 'headers':{}}"))
    = dq "{'body':'``', 'headers':{}}".
Proof.
  apply (cleanResponse_fenced (dq "{'body':'``', 'headers':{}}")).
  - vm_compute. reflexivity.
  - vm_compute. reflexivity.
Defined.

Lemma cleanResponse_fence_not_at_start_witness :
  cleanResponse (String " " ("```json" +:+ "{}```"))
  = TrimSpace (String " " ("json" +:+ stringOf (stripTicks (bytesOf "{}```")))).
Proof.
  apply (cleanResponse_fence_not_at_start " " "{}```").
  discriminate.
Defined.
